(** * mainline: flags, values and command dispatch

    A shallow embedding of the Go packages [values] (string-to-value
    coercion driven by [reflect] types), [flags] (the flag registry and its
    [Apply] scanner) and of [Commands.Run] / [Commands.findCommand] of the
    root package, followed by the properties checked against them.

    Conventions of the embedding
    - a Go [string] is a Rocq [string]: a sequence of bytes;
    - Go's [int] is taken to be 64 bits wide;
    - a Go function that may return an [error] or panic returns an
      [outcome]; functions that allocate ([reflect.New]) or write through a
      pointer thread the heap explicitly;
    - functions of Go's standard library whose result is not determined by
      this repository (float, duration, time, URL and JSON parsing, Unicode
      case folding beyond ASCII, splitting at the empty separator) are
      fields of an environment record. *)

From Stdlib Require Import ZArith String Ascii List Bool Lia.
From Stdlib Require Import Floats.SpecFloat.
From stdpp Require Import base option list gmap strings fin_maps.

Local Open Scope string_scope.
Local Open Scope Z_scope.

(** ** Package [strings] of the Go standard library (the functions used) *)

Module GoStrings.

(** [strings.HasPrefix(s, prefix)] *)
Definition HasPrefix (s pre : string) : bool := String.prefix pre s.

(** membership of a byte in a cutset of ASCII characters *)
Fixpoint inCutset (c : ascii) (cutset : string) : bool :=
  match cutset with
  | EmptyString => false
  | String d r => if Ascii.eqb c d then true else inCutset c r
  end.

(** [strings.TrimLeft(s, cutset)] for a cutset of ASCII characters *)
Fixpoint TrimLeft (s cutset : string) : string :=
  match s with
  | EmptyString => EmptyString
  | String c r => if inCutset c cutset then TrimLeft r cutset else s
  end.

(** [strings.Join(elems, sep)] *)
Fixpoint Join (elems : list string) (sep : string) : string :=
  match elems with
  | [] => ""
  | [e] => e
  | e :: r => e ++ sep ++ Join r sep
  end.

(** scanning loop of [strings.Split] for a non-empty separator: [skip]
    counts the bytes of a separator occurrence still to be stepped over,
    [cur] is the field collected so far *)
Fixpoint splitFrom (sep : string) (s : string) (skip : nat) (cur : string)
  : list string :=
  match s with
  | EmptyString => [cur]
  | String c r =>
      match skip with
      | S k => splitFrom sep r k cur
      | O =>
          if String.prefix sep s
          then cur :: splitFrom sep r (Nat.pred (String.length sep)) ""
          else splitFrom sep r O (cur ++ String c EmptyString)
      end
  end.

(** [strings.Split(s, sep)]. For the empty separator Go cuts [s] after
    each UTF-8 sequence; that cutting is left to [explode], a function of
    the standard library given with the environment. *)
Definition Split (explode : string -> list string) (s sep : string)
  : list string :=
  match sep with
  | EmptyString => explode s
  | _ => splitFrom sep s O ""
  end.

Definition isASCII (c : ascii) : bool := Z.of_N (N_of_ascii c) <? 128.

Fixpoint allASCII (s : string) : bool :=
  match s with
  | EmptyString => true
  | String c r => isASCII c && allASCII r
  end.

(** one step of the ASCII loop of [strings.EqualFold]: equal bytes, or an
    upper-case letter and its lower-case form *)
Definition foldEqByte (a b : ascii) : bool :=
  let x := Z.of_N (N_of_ascii a) in
  let y := Z.of_N (N_of_ascii b) in
  if x =? y then true
  else
    let lo := Z.min x y in
    let hi := Z.max x y in
    (65 <=? lo) && (lo <=? 90) && (hi =? lo + 32).

Fixpoint foldEqASCII (s t : string) : bool :=
  match s, t with
  | EmptyString, EmptyString => true
  | String a s', String b t' => foldEqByte a b && foldEqASCII s' t'
  | _, _ => false
  end.

(** [strings.EqualFold(s, t)]; [unicodeFold] decides the pairs in which a
    byte outside ASCII occurs (Unicode simple case folding) *)
Definition EqualFold (unicodeFold : string -> string -> bool) (s t : string)
  : bool :=
  if allASCII s && allASCII t then foldEqASCII s t else unicodeFold s t.

End GoStrings.

(** ** Package [strconv]: the two parsers the repository's behaviour
       depends on *)

Module strconv.

(** [strconv.ParseBool]: [None] stands for a returned error *)
Definition ParseBool (s : string) : option bool :=
  if (String.eqb s "1" || String.eqb s "t" || String.eqb s "T"
      || String.eqb s "TRUE" || String.eqb s "true" || String.eqb s "True")%bool
  then Some true
  else if (String.eqb s "0" || String.eqb s "f" || String.eqb s "F"
      || String.eqb s "FALSE" || String.eqb s "false" || String.eqb s "False")%bool
  then Some false
  else None.

Definition digit (c : ascii) : option Z :=
  let n := Z.of_N (N_of_ascii c) in
  if (48 <=? n) && (n <=? 57) then Some (n - 48) else None.

(** value of a string of decimal digits, [acc] being the value read so far *)
Fixpoint digits (s : string) (acc : Z) : option Z :=
  match s with
  | EmptyString => Some acc
  | String c r =>
      match digit c with
      | Some d => digits r (10 * acc + d)
      | None => None
      end
  end.

(** [strconv.ParseInt(s, 10, 64)]: an optional sign, at least one decimal
    digit, and the value within the range of [int64]; [None] stands for a
    returned error (syntax or range) *)
Definition ParseInt10_64 (s : string) : option Z :=
  let '(neg, body) :=
    match s with
    | String "+" r => (false, r)
    | String "-" r => (true, r)
    | _ => (false, s)
    end in
  match body with
  | EmptyString => None
  | _ =>
      match digits body 0 with
      | None => None
      | Some n =>
          let v := if neg then - n else n in
          if (- 2 ^ 63 <=? v) && (v <? 2 ^ 63) then Some v else None
      end
  end.

End strconv.

(** ** Package [reflect]: types, dynamic values and the heap *)

Module reflect.

(** [reflect.Kind] *)
Inductive Kind :=
| Invalid | Bool | Int | Int8 | Int16 | Int32 | Int64
| Uint | Uint8 | Uint16 | Uint32 | Uint64 | Uintptr
| Float32 | Float64 | Complex64 | Complex128
| Array | Chan | Func | Interface | Map | Ptr | Slice | String | Struct
| UnsafePointer.

(** the kinds a defined non-composite type can have *)
Inductive scalar :=
| SBool | SInt | SInt8 | SInt16 | SInt32 | SInt64
| SUint | SUint8 | SUint16 | SUint32 | SUint64 | SUintptr
| SFloat32 | SFloat64 | SComplex64 | SComplex128 | SString
| SUnsafePointer.

(** [reflect.Type]. [Basic name u] is the predeclared or defined type
    [name] whose underlying type is the scalar [u] ([Basic "int" SInt],
    [Basic "time.Duration" SInt64]); [StructT name ifaces] is the struct
    type [name], [ifaces] naming the interface types its method set
    satisfies. *)
Inductive rtype :=
| Basic (name : string) (u : scalar)
| PtrTo (elem : rtype)
| SliceOf (elem : rtype)
| ArrayOf (len : nat) (elem : rtype)
| MapOf (key elem : rtype)
| ChanOf (elem : rtype)
| FuncT (signature : string)
| StructT (name : string) (ifaces : list string)
| InterfaceT (name : string).

Definition scalarKind (u : scalar) : Kind :=
  match u with
  | SBool => Bool | SInt => Int | SInt8 => Int8 | SInt16 => Int16
  | SInt32 => Int32 | SInt64 => Int64
  | SUint => Uint | SUint8 => Uint8 | SUint16 => Uint16
  | SUint32 => Uint32 | SUint64 => Uint64 | SUintptr => Uintptr
  | SFloat32 => Float32 | SFloat64 => Float64
  | SComplex64 => Complex64 | SComplex128 => Complex128
  | SString => String | SUnsafePointer => UnsafePointer
  end.

(** [t.Kind()] *)
Definition KindOf (t : rtype) : Kind :=
  match t with
  | Basic _ u => scalarKind u
  | PtrTo _ => Ptr
  | SliceOf _ => Slice
  | ArrayOf _ _ => Array
  | MapOf _ _ => Map
  | ChanOf _ => Chan
  | FuncT _ => Func
  | StructT _ _ => Struct
  | InterfaceT _ => Interface
  end.

#[global] Instance Kind_eq_dec : EqDecision Kind.
Proof. solve_decision. Defined.

#[global] Instance scalar_eq_dec : EqDecision scalar.
Proof. solve_decision. Defined.

#[global] Instance rtype_eq_dec : EqDecision rtype.
Proof. solve_decision. Defined.

(** the predeclared types *)
Definition bool_ := Basic "bool" SBool.
Definition int_ := Basic "int" SInt.
Definition int8_ := Basic "int8" SInt8.
Definition int16_ := Basic "int16" SInt16.
Definition int32_ := Basic "int32" SInt32.
Definition int64_ := Basic "int64" SInt64.
Definition float32_ := Basic "float32" SFloat32.
Definition float64_ := Basic "float64" SFloat64.
Definition string_ := Basic "string" SString.

(** types of the standard library that the source names *)
Definition time_Duration := Basic "time.Duration" SInt64.
Definition time_Time := StructT "time.Time" ["fmt.Stringer"; "json.Marshaler"; "encoding.TextMarshaler"].
Definition url_URL := StructT "url.URL" [].
Definition json_Unmarshaler := InterfaceT "json.Unmarshaler".
Definition encoding_TextUnmarshaler := InterfaceT "encoding.TextUnmarshaler".

(** a heap address *)
Definition loc := nat.

(** A dynamic value: what an [interface{}] holds, or what a heap cell
    holds. Values of map, struct, array and complex types carry their
    contents as an uninterpreted canonical text. *)
#[warnings="-register-all"]
Inductive Val :=
| VNil                                   (* the nil interface value *)
| VBool (t : rtype) (b : bool)
| VInt (t : rtype) (z : Z)
| VFloat (t : rtype) (f : spec_float)
| VString (t : rtype) (s : string)
| VSlice (t : rtype) (elems : list Val)  (* t is the slice type *)
| VData (t : rtype) (contents : string)
| VFunc (t : rtype) (name : string)
| VPtr (elem : rtype) (l : loc)          (* non-nil pointer, of type *elem *)
| VNilOf (t : rtype).                    (* nil pointer, slice, map, chan or func of type t *)

(** [reflect.TypeOf(i)]: [None] is the nil [Type] returned for a nil
    interface value *)
Definition TypeOf (i : Val) : option rtype :=
  match i with
  | VNil => None
  | VBool t _ | VInt t _ | VFloat t _ | VString t _ | VSlice t _
  | VData t _ | VFunc t _ | VNilOf t => Some t
  | VPtr e _ => Some (PtrTo e)
  end.

(** [reflect.Zero(t)] as a dynamic value *)
Definition Zero (t : rtype) : Val :=
  match t with
  | Basic _ SBool => VBool t false
  | Basic _ (SInt | SInt8 | SInt16 | SInt32 | SInt64
            | SUint | SUint8 | SUint16 | SUint32 | SUint64 | SUintptr) =>
      VInt t 0
  | Basic _ (SFloat32 | SFloat64) => VFloat t (S754_zero false)
  | Basic _ SString => VString t ""
  | Basic _ (SComplex64 | SComplex128) => VData t ""
  | Basic _ SUnsafePointer => VNilOf t
  | StructT _ _ | ArrayOf _ _ => VData t ""
  | PtrTo _ | SliceOf _ | MapOf _ _ | ChanOf _ | FuncT _ | InterfaceT _ =>
      VNilOf t
  end.

Definition heap := list Val.

End reflect.

Abbreviation rtype := reflect.rtype.
Abbreviation Val := reflect.Val.
Abbreviation heap := reflect.heap.

(** ** Errors, outcomes and the heap-threading monad *)

(** The [error] values the repository builds, one constructor per
    [fmt.Errorf] site (the message text is left out, its arguments kept). *)
Inductive error :=
| ErrUnsupportedKind (t : rtype)              (* values.go:78 *)
| ErrCouldNotBeRead (s : string) (t : rtype)  (* values.go:128,136,173,203,219,230,242 *)
| ErrDecoder (decoder : string) (s : string)  (* error of json.Unmarshal / UnmarshalText, passed on *)
| ErrNoUnmarshaler (s : string) (t : rtype)   (* values.go:163 *)
| ErrUnknownFlag (arg : string)               (* flags.go:82 *)
| ErrCouldNotReadFlag (argVal arg : string) (cause : error)  (* flags.go:99 *)
| ErrFlagNameMissing                          (* flags.go:115 *)
| ErrFlagNil (names : list string)            (* flags.go:119,123 *)
| ErrFlagNotPointer (names : list string)     (* flags.go:126 *)
| ErrDuplicateFlag (n : string)               (* flags.go:131 *)
| ErrNoCommandGiven                           (* Run, "no command given" *)
| ErrNotKnownCommand (arg : string)           (* Run, "is not a known command" *)
| ErrNotMapped (arg cmd : string)             (* Run, "is not mapped" *)
| ErrMappedNil (arg cmd : string)             (* Run, "is mapped to a nil value" *)
| ErrUnknownFuncType (i : Val).               (* Run, last line *)

(** How a call ends: a result, a returned [error], or a panic. *)
Inductive outcome (A : Type) :=
| Ok (a : A)
| Fail (e : error)
| Panic (msg : string).
Arguments Ok {A} a.
Arguments Fail {A} e.
Arguments Panic {A} msg.

Definition M (A : Type) : Type := heap -> heap * outcome A.

Definition ret {A} (a : A) : M A := fun h => (h, Ok a).
Definition fail {A} (e : error) : M A := fun h => (h, Fail e).
Definition panic {A} (msg : string) : M A := fun h => (h, Panic msg).
Definition lift {A} (o : outcome A) : M A := fun h => (h, o).

Definition bind {A B} (m : M A) (k : A -> M B) : M B :=
  fun h =>
    match m h with
    | (h', Ok a) => k a h'
    | (h', Fail e) => (h', Fail e)
    | (h', Panic msg) => (h', Panic msg)
    end.

Notation "'do' x <- m ; k" := (bind m (fun x => k))
  (at level 10, x name, m at level 100, k at level 200).
Notation "'run' m ; k" := (bind m (fun _ => k))
  (at level 10, m at level 100, k at level 200).

(** heap primitives behind [reflect.New], [Value.Elem] and [Value.Set] *)
Definition alloc (v : Val) : M reflect.loc :=
  fun h => ((h ++ [v])%list, Ok (length h)).

Definition load (l : reflect.loc) : M Val :=
  fun h =>
    match h !! l with
    | Some v => (h, Ok v)
    | None => (h, Panic "invalid memory address")
    end.

Definition store (l : reflect.loc) (v : Val) : M unit :=
  fun h => (<[l := v]> h, Ok tt).

Module reflectOps.

(** [reflect.New(t)]: a pointer to a fresh cell holding the zero value *)
Definition New (t : rtype) : M Val :=
  do l <- alloc (reflect.Zero t); ret (reflect.VPtr t l).

(** [t.Elem()] on a [reflect.Type] *)
Definition Elem (t : rtype) : outcome rtype :=
  match t with
  | reflect.PtrTo e | reflect.SliceOf e | reflect.ArrayOf _ e
  | reflect.MapOf _ e | reflect.ChanOf e => Ok e
  | _ => Panic "reflect: Elem of invalid type"
  end.

(** whether type [t] satisfies the interface type [iface] *)
Definition satisfies (t : rtype) (iface : string) : bool :=
  if String.eqb iface "interface {}" then true
  else
    match t with
    | reflect.StructT _ ifaces => bool_decide (iface ∈ ifaces)
    | _ => false
    end.

(** [t.Implements(u)]: panics on a nil [u] and on a [u] that is not an
    interface type *)
Definition Implements (t : rtype) (u : option rtype) : outcome bool :=
  match u with
  | None => Panic "reflect: nil type passed to Type.Implements"
  | Some (reflect.InterfaceT iface) => Ok (satisfies t iface)
  | Some _ => Panic "reflect: non-interface type passed to Type.Implements"
  end.

(** [p.Elem().Set(reflect.ValueOf(v))] for a pointer [p]: panics unless the
    dynamic type of [v] is the type of the cell. (No interface-typed cell
    reaches a [Set] in this code, so assignability is type identity.) *)
Definition SetElem (p : Val) (v : Val) : M unit :=
  match p with
  | reflect.VPtr e l =>
      if bool_decide (reflect.TypeOf v = Some e)
      then store l v
      else panic "reflect.Set: value is not assignable to type"
  | _ => panic "reflect: call of reflect.Value.Elem on a non-pointer or nil Value"
  end.

(** [p.Elem().Interface()] for a pointer [p] *)
Definition ElemInterface (p : Val) : M Val :=
  match p with
  | reflect.VPtr _ l => load l
  | _ => panic "reflect: call of reflect.Value.Elem on a non-pointer or nil Value"
  end.

End reflectOps.

(** ** The environment: package variables and standard-library decoders *)

Record Env := {
  SliceDelimiter : string;                      (* values.SliceDelimiter *)
  TimeFormat : string;                          (* values.TimeFormat *)
  strconv_ParseFloat : string -> option spec_float;   (* strconv.ParseFloat(s, 64) *)
  toFloat32 : spec_float -> spec_float;         (* the rounding of SetFloat on a float32 *)
  time_ParseDuration : string -> option Z;
  time_Parse : string -> string -> option string;     (* layout, value *)
  url_Parse : string -> option string;
  json_Unmarshal : string -> rtype -> option string;  (* data, type of the target *)
  text_Unmarshal : rtype -> string -> option string;  (* the type's UnmarshalText *)
  unicodeFold : string -> string -> bool;       (* EqualFold beyond ASCII *)
  strings_explode : string -> list string;      (* strings.Split(s, ""): one field per UTF-8 sequence *)
  os_Args0 : string                             (* os.Args[0] *)
}.

(** ** Package [values] (values.go) *)

Module values.
Import reflectOps.

Section WithEnv.
Variable env : Env.

(** [structureFromString] (values.go:119-165) *)
Definition structureFromString (s : string) (t : rtype) : M Val :=
  do pStr <- New t;
  if String.eqb s "" then ElemInterface pStr
  else if bool_decide (t = reflect.url_URL) then
    match url_Parse env s with
    | None => fail (ErrCouldNotBeRead s t)
    | Some u => ret (reflect.VData reflect.url_URL u)
    end
  else if bool_decide (t = reflect.time_Time) then
    match time_Parse env (TimeFormat env) s with
    | None => fail (ErrCouldNotBeRead s t)
    | Some u => ret (reflect.VData reflect.time_Time u)
    end
  else
    (* reflect.TypeOf((json.Unmarshaler)(nil)): the type of a nil interface value *)
    do isJson <- lift (Implements t (reflect.TypeOf reflect.VNil));
    if isJson then
      match json_Unmarshal env s t with
      | None => fail (ErrDecoder "json.Unmarshal" s)
      | Some d => run SetElem pStr (reflect.VData t d); ret pStr
      end
    else
      (* reflect.TypeOf of a nil pointer to encoding.TextUnmarshaler: a pointer type *)
      do isText <- lift (Implements t
                     (reflect.TypeOf (reflect.VNilOf (reflect.PtrTo reflect.encoding_TextUnmarshaler))));
      if isText then
        (* the type assertion of line 152 holds whenever t itself has the
           method, so its panic is not reachable from here *)
        match text_Unmarshal env t s with
        | None => fail (ErrDecoder "UnmarshalText" s)
        | Some d => run SetElem pStr (reflect.VData t d); ret pStr
        end
      else fail (ErrNoUnmarshaler s t).

(** [mapFromString] (values.go:185-196) *)
Definition mapFromString (s : string) (t : rtype) : M Val :=
  do mp <- New t;
  if negb (String.eqb s "") then
    match json_Unmarshal env s t with
    | None => fail (ErrDecoder "json.Unmarshal" s)
    | Some d => run SetElem mp (reflect.VData t d); ret mp
    end
  else
    (* reflect.MakeMap(t): an empty, non-nil map *)
    run SetElem mp (reflect.VData t "{}"); ret mp.

(** [floatFromString] (values.go:198-210) *)
Definition floatFromString (s : string) (t : rtype) : M Val :=
  do f <- (if negb (String.eqb s "") then
             match strconv_ParseFloat env s with
             | None => fail (ErrCouldNotBeRead s t)
             | Some fl => ret fl
             end
           else ret (S754_zero false));
  do iv <- New t;
  (* iv.Elem().SetFloat(f) *)
  do x <- match reflect.KindOf t with
          | reflect.Float64 => ret (reflect.VFloat t f)
          | reflect.Float32 => ret (reflect.VFloat t (toFloat32 env f))
          | _ => panic "reflect: call of reflect.Value.SetFloat on a non-float Value"
          end;
  run SetElem iv x;
  ret iv.

(** [intFromString] (values.go:212-235) *)
Definition intFromString (s : string) (t : rtype) : M Val :=
  if bool_decide (t = reflect.time_Duration) then
    do d <- (if negb (String.eqb s "") then
               match time_ParseDuration env s with
               | None => fail (ErrCouldNotBeRead s t)
               | Some du => ret du
               end
             else ret 0);
    (* return &d, nil *)
    do l <- alloc (reflect.VInt reflect.time_Duration d);
    ret (reflect.VPtr reflect.time_Duration l)
  else
    do i <- (if negb (String.eqb s "") then
               match strconv.ParseInt10_64 s with
               | None => fail (ErrCouldNotBeRead s t)
               | Some ii => ret ii      (* i = int(ii) *)
               end
             else ret 0);
    ret (reflect.VInt reflect.int_ i).

(** [boolFromString] (values.go:237-247) *)
Definition boolFromString (s : string) (t : rtype) : M Val :=
  do b <- (if negb (String.eqb s "") then
             match strconv.ParseBool s with
             | None => fail (ErrCouldNotBeRead s t)
             | Some bb => ret bb
             end
           else ret true);
  ret (reflect.VBool reflect.bool_ b).

(** [stringFromString] (values.go:249-253) *)
Definition stringFromString (s : string) (t : rtype) : M Val :=
  do sv <- New t;
  do x <- match reflect.KindOf t with
          | reflect.String => ret (reflect.VString t s)
          | _ => panic "reflect: call of reflect.Value.SetString on a non-string Value"
          end;
  run SetElem sv x;
  ElemInterface sv.

(** the [for _, sa := range ss] loop of [sliceFromString]
    (values.go:170-180); [coerce] is [ValueFromString(_, t.Elem())], [sv]
    the elements appended so far *)
Fixpoint sliceLoop (coerce : string -> M Val) (elemT : rtype)
    (ss : list string) (sv : list Val) : M (list Val) :=
  match ss with
  | [] => ret sv
  | sa :: rest =>
      fun h =>
        match coerce sa h with
        | (h', Ok sel) =>
            (do ev <- match sel with
                      | reflect.VPtr _ _ => ElemInterface sel
                      | reflect.VNilOf (reflect.PtrTo _) =>
                          panic "reflect.Append: zero Value"
                      | _ => ret sel
                      end;
             (* reflect.Append(sv, ev) *)
             if bool_decide (reflect.TypeOf ev = Some elemT)
             then sliceLoop coerce elemT rest (sv ++ [ev])%list
             else panic "reflect.Append: value is not assignable to the element type") h'
        | (h', Fail _) => (h', Fail (ErrCouldNotBeRead sa elemT))
        | (h', Panic msg) => (h', Panic msg)
        end
  end.

(** body of [sliceFromString] for the slice type [t] with element type
    [elemT] *)
Definition sliceBody (coerce : string -> M Val) (elemT : rtype)
    (s : string) (t : rtype) : M Val :=
  let ss := GoStrings.Split (strings_explode env) s (SliceDelimiter env) in
  do elems <- sliceLoop coerce elemT ss [];
  ret (reflect.VSlice t elems).

(** [ValueFromString] (values.go:42-80) *)
Fixpoint ValueFromString (v : string) (t : rtype) {struct t} : M Val :=
  match t with
  | reflect.InterfaceT _ =>
      (* ValueFromString(v, t.Elem()): Elem panics on an interface type *)
      panic "reflect: Elem of invalid type"
  | reflect.PtrTo e =>
      do x <- ValueFromString v e;
      do p <- New e;
      run SetElem p x;
      ret p
  | reflect.StructT _ _ => structureFromString v t
  | reflect.SliceOf e => sliceBody (fun sa => ValueFromString sa e) e v t
  | reflect.MapOf _ _ => mapFromString v t
  | reflect.Basic _ (reflect.SFloat64 | reflect.SFloat32) => floatFromString v t
  | reflect.Basic _ (reflect.SInt64 | reflect.SInt32 | reflect.SInt16
                    | reflect.SInt8 | reflect.SInt) => intFromString v t
  | reflect.Basic _ reflect.SBool => boolFromString v t
  | reflect.Basic _ reflect.SString => stringFromString v t
  | _ => fail (ErrUnsupportedKind t)
  end.

(** [sliceFromString] (values.go:167-182) *)
Definition sliceFromString (s : string) (t : rtype) : M Val :=
  match t with
  | reflect.SliceOf e => sliceBody (fun sa => ValueFromString sa e) e s t
  | _ => panic "reflect.MakeSlice of non-slice type"
  end.

(** [SetValue] (values.go:100-117): the string is coerced to the type of
    the receiver, then assigned through the receiver, a pointer on either
    side being followed once *)
Definition SetValue (r : Val) (val : string) : M unit :=
  match reflect.TypeOf r with
  | None =>
      (* reflect.TypeOf(nil) is the nil Type, whose Kind() cannot be called *)
      panic "invalid memory address or nil pointer dereference"
  | Some t =>
      do iVal <- ValueFromString val t;
      do v <- match iVal with
              | reflect.VPtr _ _ => ElemInterface iVal
              | reflect.VNil | reflect.VNilOf (reflect.PtrTo _) =>
                  panic "reflect: call of reflect.Value.Set on zero Value"
              | _ => ret iVal
              end;
      match r with
      | reflect.VPtr _ _ => SetElem r v
      | _ => panic "reflect: reflect.Value.Set using unaddressable value"
      end
  end.

End WithEnv.

(** [IsKind] (values.go:82-88). The recursion follows pointers through the
    heap; [fuel] bounds the pointers followed and [None] is returned when
    it is used up. *)
Fixpoint IsKindFrom (fuel : nat) (i : Val) (k : reflect.Kind) (h : heap)
  : option (outcome bool) :=
  match fuel with
  | O => None
  | S fuel' =>
      match i with
      | reflect.VPtr _ l =>
          match h !! l with
          | Some x => IsKindFrom fuel' x k h
          | None => Some (Panic "invalid memory address")
          end
      | reflect.VNilOf (reflect.PtrTo _) =>
          (* t.Elem() of a nil pointer is the zero Value *)
          Some (Panic "reflect: call of reflect.Value.Interface on zero Value")
      | _ =>
          Some (Ok (bool_decide
                      (from_option reflect.KindOf reflect.Invalid (reflect.TypeOf i) = k)))
      end
  end.

(** a chain of pointers that does not come back to a cell has at most as
    many pointers as the heap has cells *)
Definition IsKind (i : Val) (k : reflect.Kind) (h : heap) : option (outcome bool) :=
  IsKindFrom (S (length h)) i k h.

(** [GetValue] (values.go:90-96), with fuel as for [IsKind] *)
Fixpoint GetValueFrom (fuel : nat) (r : Val) (h : heap) : option (outcome Val) :=
  match fuel with
  | O => None
  | S fuel' =>
      match r with
      | reflect.VNil =>
          Some (Panic "invalid memory address or nil pointer dereference")
      | reflect.VPtr _ l =>
          match h !! l with
          | Some x => GetValueFrom fuel' x h
          | None => Some (Panic "invalid memory address")
          end
      | reflect.VNilOf (reflect.PtrTo _) =>
          Some (Panic "reflect: call of reflect.Value.Interface on zero Value")
      | _ => Some (Ok r)
      end
  end.

Definition GetValue (r : Val) (h : heap) : option (outcome Val) :=
  GetValueFrom (S (length h)) r h.

End values.

(** ** Package [flags] (flags.go) *)

Module flags.
Import reflectOps.

(** [type Flags struct]. The map is shared by every copy of the struct, so a
    method with a value receiver still updates it. *)
Record Flags := {
  IgnoreUnknown : bool;
  flags : gmap string Val
}.

(** [NewFlags] (flags.go:31-33) *)
Definition NewFlags (ignoreUnknown : bool) : Flags :=
  {| IgnoreUnknown := ignoreUnknown; flags := ∅ |}.

Definition stringSlice : rtype := reflect.SliceOf reflect.string_.

(** a [[]string] as a dynamic value, and back (the type assertion
    [v.([]string)]) *)
Definition ofStrings (ss : list string) : Val :=
  reflect.VSlice stringSlice (map (reflect.VString reflect.string_) ss).

Fixpoint stringElems (vs : list Val) : option (list string) :=
  match vs with
  | [] => Some []
  | reflect.VString t s :: r =>
      if bool_decide (t = reflect.string_)
      then option_map (cons s) (stringElems r)
      else None
  | _ :: _ => None
  end.

Definition toStrings (v : Val) : option (list string) :=
  match v with
  | reflect.VSlice t elems =>
      if bool_decide (t = stringSlice) then stringElems elems else None
  | reflect.VNilOf t =>
      if bool_decide (t = stringSlice) then Some [] else None
  | _ => None
  end.

(** [Flags.Parameters] (flags.go:41-47) *)
Definition Parameters (fs : Flags) : outcome (list string) :=
  match flags fs !! "" with
  | None => Ok []
  | Some v =>
      match toStrings v with
      | Some ss => Ok ss
      | None => Panic "interface conversion: interface {} is not []string"
      end
  end.

(** the assignment [fs.flags[""] = append(fs.Parameters(), tok)] of
    flags.go:70 and 79 *)
Definition appendParameter (fs : Flags) (tok : string) : outcome Flags :=
  match Parameters fs with
  | Ok ps =>
      Ok {| IgnoreUnknown := IgnoreUnknown fs;
            flags := <[ "" := ofStrings (ps ++ [tok])%list ]> (flags fs) |}
  | Fail e => Fail e
  | Panic msg => Panic msg
  end.

(** Modelled from the spec: the two-argument [values.SetValue(recv, val)]
    that [Apply] calls is not among the sources (values.go has a
    [SetValue(r, string)] that coerces first). Spec 4.2 step 8: "On
    success, write the coerced value into the bound location". The receiver
    is the registered pointer and the location is what it points to; a
    coerced value that is itself a pointer is dereferenced before the
    write, as the assignment part of values.go:106-115 does. *)
Definition SetValue (recv : Val) (val : Val) : M unit :=
  match recv with
  | reflect.VPtr _ _ =>
      do v <- match val with
              | reflect.VPtr _ _ => ElemInterface val
              | reflect.VNil | reflect.VNilOf (reflect.PtrTo _) =>
                  panic "reflect: call of reflect.Value.Set on zero Value"
              | _ => ret val
              end;
      SetElem recv v
  | _ => panic "reflect: reflect.Value.Set using unaddressable value"
  end.

(** What one iteration of the loop of [Apply] leaves behind: the tokens
    still to scan with the state, or the end of the call. *)
Inductive step :=
| Continue (rest : list string) (fs : Flags) (h : heap)
| Return (fs : Flags) (h : heap) (r : outcome unit).

(** the look-ahead of flags.go:85-89: the candidate value and the tokens
    after it, and whether [i] was advanced *)
Definition lookahead (rest : list string) : string * bool * list string :=
  match rest with
  | next :: r =>
      if negb (GoStrings.HasPrefix next "-") then (next, true, r)
      else ("", false, rest)
  | [] => ("", false, rest)
  end.

Section WithEnv.
Variable env : Env.

(** One iteration of [for i := 0; i < len(args); i++] in [Apply]
    (flags.go:67-103) at token [a = args[i]], [rest] being the tokens after
    it. The index is represented by the tokens from it on: [i++] of line 87
    drops the look-ahead token, [i--] of line 97 puts back the token that
    precedes the position reached. *)
Definition iteration (a : string) (rest : list string) (fs : Flags) (h : heap)
  : step :=
  if negb (GoStrings.HasPrefix a "-") || String.eqb a "-" then
    (* collect non flag parameters in empty key *)
    match appendParameter fs a with
    | Ok fs' => Continue rest fs' h
    | Fail e => Return fs h (Fail e)
    | Panic msg => Return fs h (Panic msg)
    end
  else
    let arg := GoStrings.TrimLeft a "-" in
    match flags fs !! arg with
    | None =>
        (* unknown flag *)
        if IgnoreUnknown fs then
          match appendParameter fs (GoStrings.Join ["-"; arg] "") with
          | Ok fs' => Continue rest fs' h
          | Fail e => Return fs h (Fail e)
          | Panic msg => Return fs h (Panic msg)
          end
        else Return fs h (Fail (ErrUnknownFlag arg))
    | Some v =>
        let '(argVal, advanced, rest') := lookahead rest in
        match reflect.TypeOf v with
        | None => Return fs h (Panic "invalid memory address or nil pointer dereference")
        | Some to =>
            match values.ValueFromString env argVal to h with
            | (h1, Ok iVal) =>
                match SetValue v iVal h1 with
                | (h2, Ok _) => Continue rest' fs h2
                | (h2, Fail e) => Continue rest' fs h2   (* the result of SetValue is dropped *)
                | (h2, Panic msg) => Return fs h2 (Panic msg)
                end
            | (h1, Fail err) =>
                (* special case for bool *)
                if bool_decide (reflect.KindOf to = reflect.Bool) then
                  let back := if advanced then rest else (a :: rest) in
                  match SetValue v (reflect.VBool reflect.bool_ true) h1 with
                  | (h2, Panic msg) => Return fs h2 (Panic msg)
                  | (h2, _) => Continue back fs h2
                  end
                else Return fs h1 (Fail (ErrCouldNotReadFlag argVal arg err))
            | (h1, Panic msg) => Return fs h1 (Panic msg)
            end
        end
    end.

(** The loop of [Apply]; [None] when the iterations allowed by [fuel] are
    used up before the loop ends. *)
Fixpoint loop (fuel : nat) (args : list string) (fs : Flags) (h : heap)
  : option (Flags * heap * outcome unit) :=
  match args with
  | [] => Some (fs, h, Ok tt)
  | a :: rest =>
      match fuel with
      | O => None
      | S fuel' =>
          match iteration a rest fs h with
          | Continue rest' fs' h' => loop fuel' rest' fs' h'
          | Return fs' h' r => Some (fs', h', r)
          end
      end
  end.

(** [Flags.Apply] (flags.go:66-105) *)
Definition Apply (fs : Flags) (args : list string) (h : heap)
  : option (Flags * heap * outcome unit) :=
  loop (length args) args fs h.

End WithEnv.

(** [val.IsNil()] of flags.go:122 *)
Definition IsNil (v : Val) : outcome bool :=
  match reflect.TypeOf v with
  | None => Panic "reflect: call of reflect.Value.IsNil on zero Value"
  | Some t =>
      match reflect.KindOf t with
      | reflect.Chan | reflect.Func | reflect.Interface | reflect.Map
      | reflect.Ptr | reflect.Slice | reflect.UnsafePointer =>
          Ok (match v with reflect.VNilOf _ => true | _ => false end)
      | _ => Panic "reflect: call of reflect.Value.IsNil on a non-nillable Value"
      end
  end.

(** the [for _, n := range names] loop of [AddFlag] (flags.go:129-134) *)
Fixpoint addNames (v : Val) (names : list string) (m : gmap string Val)
  : gmap string Val * outcome unit :=
  match names with
  | [] => (m, Ok tt)
  | n :: r =>
      match m !! n with
      | Some _ => (m, Fail (ErrDuplicateFlag n))
      | None => addNames v r (<[ n := v ]> m)
      end
  end.

(** [Flags.AddFlag] (flags.go:113-136) *)
Definition AddFlag (fs : Flags) (v : Val) (names : list string)
  : Flags * outcome unit :=
  match names with
  | [] => (fs, Fail ErrFlagNameMissing)
  | _ =>
      match v with
      | reflect.VNil => (fs, Fail (ErrFlagNil names))
      | _ =>
          match IsNil v with
          | Panic msg => (fs, Panic msg)
          | Fail e => (fs, Fail e)
          | Ok true => (fs, Fail (ErrFlagNil names))
          | Ok false =>
              if negb (bool_decide (option_map reflect.KindOf (reflect.TypeOf v)
                                    = Some reflect.Ptr))
              then (fs, Fail (ErrFlagNotPointer names))
              else
                let '(m, r) := addNames v names (flags fs) in
                ({| IgnoreUnknown := IgnoreUnknown fs; flags := m |}, r)
          end
      end
  end.

End flags.

(** ** Package [mainline]: [Commands] *)

Module mainline.

(** [type Commands map[string]interface{}]. [findCommand] ranges over the
    map and Go leaves the order of a range over a map unspecified, so a
    command table is given as its entries in the order the range visits
    them; the keys of a table are pairwise distinct. *)
Definition Commands := list (string * Val).

Definition keys (cmds : Commands) : list string := map fst cmds.

(** the index expression [cmds[cmd]] *)
Fixpoint index (cmds : Commands) (cmd : string) : option Val :=
  match cmds with
  | [] => None
  | (k, i) :: r => if String.eqb k cmd then Some i else index r cmd
  end.

(** How [Run] ends: it returns an [error], panics, or ends in a call of one
    of the three invokers, which are defined outside these sources
    ([CallHelpCommand], [functions.CallMethod], [functions.CallFunc]) and
    whose result it returns. *)
Inductive ending :=
| Returns (e : error)
| Panics (msg : string)
| CallHelpCommand (i : Val) (cmds : Commands) (args : list string)
| CallMethod (i : Val) (args : list string)
| CallFunc (i : Val) (args : list string).

Section WithEnv.
Variable env : Env.
(** the classifiers of a table entry, defined outside these sources *)
Variable IsHelpCommand : Val -> bool.
Variable IsMethod : Val -> bool.
Variable IsFunc : Val -> bool.

(** [Commands.findCommand] (lines 65-72) *)
Fixpoint findCommand (cmds : Commands) (arg : string) : string * bool :=
  match cmds with
  | [] => ("", false)
  | (k, _) :: r =>
      if GoStrings.EqualFold (unicodeFold env) k arg then (k, true)
      else findCommand r arg
  end.

(** the end of [Run] (lines 51-60): the entry found is handed to the
    invoker that fits it *)
Definition dispatch (i : Val) (cmds : Commands) (args : list string) : ending :=
  if IsHelpCommand i then CallHelpCommand i cmds args
  else if IsMethod i then CallMethod i args
  else if IsFunc i then CallFunc i args
  else Returns (ErrUnknownFuncType i).

(** [Run] from line 28 on: the command is looked up among the parameters
    left by the global flags and the entry found is dispatched *)
Definition resolve (cmds : Commands) (G : flags.Flags) : ending :=
  match flags.Parameters G with
  | Panic msg => Panics msg
  | Fail e => Returns e
  | Ok args =>
      let '(arg, args) :=
        match args with
        | a :: r => (a, r)
        | [] => ("", [])
        end in
      let '(cmd, ok) := findCommand cmds arg in
      if negb ok then
        if String.eqb arg "" then Returns ErrNoCommandGiven
        else Returns (ErrNotKnownCommand arg)
      else
        match index cmds cmd with
        | None => Returns (ErrNotMapped arg cmd)
        | Some reflect.VNil => Returns (ErrMappedNil arg cmd)
        | Some i => dispatch i cmds args
        end
  end.

(** [Run] from line 24 on, for the arguments left after the program name
    has been looked at *)
Definition runArgs (cmds : Commands) (args : list string)
    (G : flags.Flags) (h : heap) : option (flags.Flags * heap * ending) :=
  match flags.Apply env G args h with
  | None => None
  | Some (G', h', Fail e) => Some (G', h', Returns e)
  | Some (G', h', Panic msg) => Some (G', h', Panics msg)
  | Some (G', h', Ok _) => Some (G', h', resolve cmds G')
  end.

(** [Commands.Run] (lines 19-61); [G] is the state of [GlobalFlags] *)
Definition Run (cmds : Commands) (args : list string)
    (G : flags.Flags) (h : heap) : option (flags.Flags * heap * ending) :=
  let args :=
    match args with
    | a0 :: r => if String.eqb a0 (os_Args0 env) then r else args
    | [] => args
    end in
  runArgs cmds args G h.

End WithEnv.

(** [var GlobalFlags = flags.NewFlags(true)] *)
Definition GlobalFlags : flags.Flags := flags.NewFlags true.

End mainline.

(** ** Concrete environment and registries for closed examples *)

(** The package defaults ([SliceDelimiter] and [TimeFormat] as initialised
    in values.go) with library decoders that accept no input; the closed
    examples below use tokens that reach none of these decoders, nor the
    cutting for an empty separator, nor case folding beyond ASCII. *)
Definition defaultEnv : Env :=
  {| SliceDelimiter := ",";
     TimeFormat := "2006-01-02T15:04:05Z07:00";
     strconv_ParseFloat := fun _ => None;
     toFloat32 := fun f => f;
     time_ParseDuration := fun _ => None;
     time_Parse := fun _ _ => None;
     url_Parse := fun _ => None;
     json_Unmarshal := fun _ _ => None;
     text_Unmarshal := fun _ _ => None;
     unicodeFold := fun _ _ => false;
     strings_explode := fun _ => [];
     os_Args0 := "app" |}.

Definition vbool (b : bool) : Val := reflect.VBool reflect.bool_ b.
Definition vstring (s : string) : Val := reflect.VString reflect.string_ s.

(** [dashes k] is [strings.Repeat("-", k)] *)
Fixpoint dashes (k : nat) : string :=
  match k with
  | O => ""
  | S k' => String "-" (dashes k')
  end.

(** a token is a flag marker when line 69 of flags.go does not take it as a
    parameter *)
Definition isMarker (a : string) : bool :=
  negb (negb (GoStrings.HasPrefix a "-") || String.eqb a "-").

(** [fs := NewFlags(true); fs.AddFlag(&verbose, "v")], [verbose] living at
    heap address 0 *)
Definition regBool : flags.Flags :=
  fst (flags.AddFlag (flags.NewFlags true) (reflect.VPtr reflect.bool_ 0%nat) ["v"]).

(** [fs := NewFlags(true); fs.AddFlag(&name, "name")], [name] living at heap
    address 0 *)
Definition regName : flags.Flags :=
  fst (flags.AddFlag (flags.NewFlags true) (reflect.VPtr reflect.string_ 0%nat) ["name"]).

(** [fs := NewFlags(false); fs.AddFlag(&verbose, "-v")]: a strict registry
    whose only name starts with a dash *)
Definition regDashName : flags.Flags :=
  fst (flags.AddFlag (flags.NewFlags false) (reflect.VPtr reflect.bool_ 0%nat) ["-v"]).

(** classifiers for closed examples: only function values are callable,
    nothing is a help command or a method *)
Definition isFuncVal (v : Val) : bool :=
  match v with
  | reflect.VFunc _ _ => true
  | _ => false
  end.

Definition noVal (v : Val) : bool := false.

(** the function [name] as a table entry *)
Definition handler (name : string) : Val :=
  reflect.VFunc (reflect.FuncT "func()") name.

(** [Commands{"Build": build}] *)
Definition buildTable : mainline.Commands := [("Build", handler "main.build")].

(** a table with two names that differ by case only, in an order a range
    over the map may take *)
Definition twoBuilds : mainline.Commands :=
  [("BUILD", handler "main.other"); ("Build", handler "main.build")].

(** [Commands{"app": run}], with ["app"] also the program name of
    [defaultEnv] *)
Definition appTable : mainline.Commands := [("app", handler "main.run")].

(** what [Apply] leaves in the parameters for a token of a registry
    without flag names: a marker is rebuilt from one dash and its name *)
Definition asParameter (a : string) : string :=
  if isMarker a then "-" ++ GoStrings.TrimLeft a "-" else a.

(** [fs := NewFlags(true); fs.AddFlag(&count, "count")], [count] an [int]
    living at heap address 0 *)
Definition regInt : flags.Flags :=
  fst (flags.AddFlag (flags.NewFlags true) (reflect.VPtr reflect.int_ 0%nat) ["count"]).

(** a value of integer type [t] *)
Definition vint (z : Z) : Val := reflect.VInt reflect.int_ z.

(** a computation that leaves every cell of the heap it is given as it
    was, and at most allocates behind them *)
Definition grows {A : Type} (m : M A) : Prop :=
  forall (h h' : heap) (o : outcome A), m h = (h', o) -> h `prefix_of` h'.

(** what a field of a comma-separated [[]int] token stands for: the empty
    field is read as zero (values.go:226-233) *)
Definition intField (f : string) : option Z :=
  if String.eqb f "" then Some 0 else strconv.ParseInt10_64 f.

(** what [Apply] may change of a registry: nothing but the parameters,
    and those only by appending *)
Definition keeps (fs fs' : flags.Flags) : Prop :=
  flags.IgnoreUnknown fs' = flags.IgnoreUnknown fs
  /\ (forall k, k <> "" -> flags.flags fs' !! k = flags.flags fs !! k)
  /\ (forall ps, flags.Parameters fs = Ok ps ->
        exists more, flags.Parameters fs' = Ok (ps ++ more)%list).

(** the kinds whose values [reflect.Value.IsNil] accepts *)
Definition nillable : list reflect.Kind :=
  [reflect.Chan; reflect.Func; reflect.Interface; reflect.Map; reflect.Ptr;
   reflect.Slice; reflect.UnsafePointer].

(** ** Properties *)

(** *** Strings *)

Lemma HasPrefix_dash_cons (c : ascii) (s : string) :
  GoStrings.HasPrefix (String c s) "-" = Ascii.eqb c "-".
Proof.
  unfold GoStrings.HasPrefix. cbn [String.prefix].
  destruct (ascii_dec "-" c) as [<-|Hne].
  - now destruct s.
  - symmetry. apply Ascii.eqb_neq. congruence.
Qed.

Lemma TrimLeft_dashes (k : nat) (n : string) :
  GoStrings.HasPrefix n "-" = false ->
  GoStrings.TrimLeft (dashes k ++ n) "-" = n.
Proof.
  intros Hn. induction k as [|k IH]; simpl.
  - destruct n as [|c n]; [reflexivity|].
    rewrite HasPrefix_dash_cons in Hn. simpl. now rewrite Hn.
  - exact IH.
Qed.

Lemma isMarker_dashes (k : nat) (n : string) :
  n <> "" -> isMarker (dashes (S k) ++ n) = true.
Proof.
  intros Hn. unfold isMarker.
  change (dashes (S k) ++ n) with (String "-" (dashes k ++ n)).
  rewrite HasPrefix_dash_cons.
  destruct (dashes k ++ n) eqn:E; [|reflexivity].
  destruct k; simpl in E; [contradiction | discriminate].
Qed.

(** *** The loop of [Apply] ends *)

Lemma ValueFromString_bool_empty (env : Env) (nm : string) (h : heap) :
  values.ValueFromString env "" (reflect.Basic nm reflect.SBool) h
  = (h, Ok (vbool true)).
Proof. reflexivity. Qed.

Lemma KindOf_Bool (t : rtype) :
  reflect.KindOf t = reflect.Bool -> exists nm, t = reflect.Basic nm reflect.SBool.
Proof.
  destruct t as [nm u| | | | | | | |]; try discriminate.
  destruct u; try discriminate. intros _. now exists nm.
Qed.

Lemma lookahead_cases (rest : list string) :
  (exists next r, rest = next :: r /\ GoStrings.HasPrefix next "-" = false
                  /\ flags.lookahead rest = (next, true, r))
  \/ flags.lookahead rest = ("", false, rest).
Proof.
  destruct rest as [|next r]; [now right|].
  unfold flags.lookahead.
  destruct (GoStrings.HasPrefix next "-") eqn:E; simpl.
  - now right.
  - left. now exists next, r.
Qed.

(** an iteration that goes on leaves fewer tokens than it was given,
    counting the token it looked at *)
Lemma iteration_Continue_shorter (env : Env) (a : string) (rest rest' : list string)
    (fs fs' : flags.Flags) (h h' : heap) :
  flags.iteration env a rest fs h = flags.Continue rest' fs' h' ->
  (length rest' <= length rest)%nat.
Proof.
  unfold flags.iteration.
  destruct (negb (GoStrings.HasPrefix a "-") || String.eqb a "-").
  { destruct (flags.appendParameter fs a); intros [= <- _ _]; lia. }
  destruct (flags.flags fs !! GoStrings.TrimLeft a "-") as [v|].
  2:{ destruct (flags.IgnoreUnknown fs); [|discriminate].
      destruct (flags.appendParameter fs _); intros [= <- _ _]; lia. }
  destruct (lookahead_cases rest) as [(next & r & -> & _ & ->)| ->].
  - destruct (reflect.TypeOf v) as [to|]; [|discriminate].
    destruct (values.ValueFromString env next to h) as [h1 [iVal|err|msg]];
      [| |discriminate].
    + destruct (flags.SetValue v iVal h1) as [h2 [?|?|?]];
        intros [= <- _ _]; simpl; lia.
    + destruct (bool_decide _); [|discriminate].
      destruct (flags.SetValue v _ h1) as [h2 [?|?|?]];
        intros [= <- _ _]; simpl; lia.
  - destruct (reflect.TypeOf v) as [to|]; [|discriminate].
    destruct (values.ValueFromString env "" to h) as [h1 [iVal|err|msg]] eqn:EV;
      [| |discriminate].
    + destruct (flags.SetValue v iVal h1) as [h2 [?|?|?]];
        intros [= <- _ _]; simpl; lia.
    + destruct (bool_decide _) eqn:EK; [|discriminate].
      apply bool_decide_eq_true in EK.
      destruct (KindOf_Bool _ EK) as [nm ->].
      rewrite ValueFromString_bool_empty in EV. discriminate.
Qed.

Lemma loop_enough_fuel (env : Env) (fuel : nat) (args : list string)
    (fs : flags.Flags) (h : heap) :
  (length args <= fuel)%nat ->
  exists r, flags.loop env fuel args fs h = Some r.
Proof.
  revert args fs h. induction fuel as [|fuel IH]; intros args fs h Hlen.
  - destruct args; [simpl; eauto | simpl in Hlen; lia].
  - destruct args as [|a rest]; [simpl; eauto|]. simpl.
    destruct (flags.iteration env a rest fs h) as [rest' fs' h'|fs' h' r] eqn:E.
    + apply IH. apply iteration_Continue_shorter in E. simpl in Hlen. lia.
    + eauto.
Qed.

(** more fuel does not change a result already reached *)
Lemma loop_fuel_mono (env : Env) (fuel fuel' : nat) (args : list string)
    (fs : flags.Flags) (h : heap) r :
  flags.loop env fuel args fs h = Some r ->
  (fuel <= fuel')%nat ->
  flags.loop env fuel' args fs h = Some r.
Proof.
  revert fuel' args fs h. induction fuel as [|fuel IH]; intros fuel' args fs h H Hle.
  - destruct args; [|discriminate]. destruct fuel'; exact H.
  - destruct args as [|a rest]; [destruct fuel'; exact H|].
    destruct fuel' as [|fuel']; [lia|]. simpl in *.
    destruct (flags.iteration env a rest fs h); [|exact H].
    apply IH; [exact H | lia].
Qed.

(** [Apply] always ends: the fuel it is given suffices. *)
Lemma Apply_total (env : Env) (fs : flags.Flags) (args : list string) (h : heap) :
  exists r, flags.Apply env fs args h = Some r.
Proof. apply loop_enough_fuel. lia. Qed.

(** [Apply] on a list is one iteration on its head, then [Apply] on what
    that iteration leaves. *)
Lemma Apply_cons (env : Env) (fs : flags.Flags) (a : string) (rest : list string)
    (h : heap) :
  flags.Apply env fs (a :: rest) h =
  match flags.iteration env a rest fs h with
  | flags.Continue rest' fs' h' => flags.Apply env fs' rest' h'
  | flags.Return fs' h' r => Some (fs', h', r)
  end.
Proof.
  unfold flags.Apply. simpl.
  destruct (flags.iteration env a rest fs h) as [rest' fs' h'|fs' h' r] eqn:E;
    [|reflexivity].
  destruct (loop_enough_fuel env (length rest') rest' fs' h') as [r Hr]; [lia|].
  rewrite Hr. apply loop_fuel_mono with (fuel := length rest'); [exact Hr|].
  now apply iteration_Continue_shorter in E.
Qed.

Lemma isMarker_false_iff (a : string) :
  isMarker a = true ->
  negb (GoStrings.HasPrefix a "-") || String.eqb a "-" = false.
Proof. unfold isMarker. now rewrite negb_true_iff. Qed.

Lemma stringElems_map (ss : list string) :
  flags.stringElems (map (reflect.VString reflect.string_) ss) = Some ss.
Proof.
  induction ss as [|s ss IH]; [reflexivity|].
  cbn [map flags.stringElems].
  rewrite bool_decide_eq_true_2 by reflexivity. now rewrite IH.
Qed.

Lemma toStrings_ofStrings (ss : list string) :
  flags.toStrings (flags.ofStrings ss) = Some ss.
Proof.
  unfold flags.toStrings, flags.ofStrings.
  rewrite bool_decide_eq_true_2 by reflexivity. apply stringElems_map.
Qed.

(** two markers with the same name behind their dashes are treated alike
    by an iteration *)
Lemma iteration_same_name (env : Env) (a1 a2 : string) (rest : list string)
    (fs : flags.Flags) (h : heap) :
  isMarker a1 = true -> isMarker a2 = true ->
  GoStrings.TrimLeft a1 "-" = GoStrings.TrimLeft a2 "-" ->
  flags.iteration env a1 rest fs h = flags.iteration env a2 rest fs h.
Proof.
  intros M1 M2 E. unfold flags.iteration.
  rewrite (isMarker_false_iff _ M1), (isMarker_false_iff _ M2), <- E.
  destruct (flags.flags fs !! GoStrings.TrimLeft a1 "-") as [v|]; [|reflexivity].
  destruct (lookahead_cases rest) as [(next & r & -> & _ & ->)| ->];
    [reflexivity|].
  destruct (reflect.TypeOf v) as [to|]; [|reflexivity].
  destruct (values.ValueFromString env "" to h) as [h1 [iVal|err|msg]] eqn:EV;
    try reflexivity.
  destruct (bool_decide _) eqn:EK; [|reflexivity].
  apply bool_decide_eq_true in EK.
  destruct (KindOf_Bool _ EK) as [nm ->].
  rewrite ValueFromString_bool_empty in EV. discriminate.
Qed.

(** *** C1 *)

(** C1 (flags.go:85-102). The claim: with a boolean flag [v] registered,
    applying ["-v"; t] for a non-empty [t] that does not start with a dash
    and is no boolean literal sets the flag to true, leaves [t] among the
    parameters and returns no error. What the code does instead: the
    registered value is a pointer, so the type handed to the test of line 95
    has kind [Ptr], never [Bool]; the recovery is not reached, [Apply]
    returns the "could not read" error of line 99, and neither the
    registry nor the variable is touched. *)
Theorem C1_bool_flag_unparsable_value_is_an_error
    (env : Env) (fs : flags.Flags) (nm : string) (l : reflect.loc)
    (t : string) (h : heap) :
  flags.flags fs !! "v" = Some (reflect.VPtr (reflect.Basic nm reflect.SBool) l) ->
  t <> "" ->
  GoStrings.HasPrefix t "-" = false ->
  strconv.ParseBool t = None ->
  flags.Apply env fs ["-v"; t] h
  = Some (fs, h, Fail (ErrCouldNotReadFlag t "v"
                         (ErrCouldNotBeRead t (reflect.Basic nm reflect.SBool)))).
Proof.
  intros Hv Ht Hdash Hparse.
  rewrite Apply_cons. unfold flags.iteration.
  change (negb (GoStrings.HasPrefix "-v" "-") || String.eqb "-v" "-") with false.
  change (GoStrings.TrimLeft "-v" "-") with "v".
  cbv iota. rewrite Hv.
  unfold flags.lookahead. rewrite Hdash. cbn [negb reflect.TypeOf].
  assert (Hne : String.eqb t "" = false) by (now apply String.eqb_neq).
  cbn [values.ValueFromString].
  unfold bind at 1. unfold values.boolFromString, bind.
  rewrite Hne. cbn [negb]. rewrite Hparse. unfold fail.
  reflexivity.
Qed.

Lemma C1_witness :
  flags.Apply defaultEnv regBool ["-v"; "foo"] [vbool false]
  = Some (regBool, [vbool false],
          Fail (ErrCouldNotReadFlag "foo" "v" (ErrCouldNotBeRead "foo" reflect.bool_))).
Proof.
  apply (C1_bool_flag_unparsable_value_is_an_error defaultEnv regBool "bool" 0%nat
           "foo" [vbool false]).
  - reflexivity.
  - discriminate.
  - reflexivity.
  - reflexivity.
Defined.

(** *** C5 *)

(** C5, as stated, fails (flags.go:74-80): the token appended for an
    unknown flag is rebuilt as one dash and the stripped name, so applying
    ["--x"] to an empty permissive registry leaves "-x", not "--x",
    among the parameters. *)
Lemma C5_two_dashes_not_kept :
  match flags.Apply defaultEnv (flags.NewFlags true) ["--x"] [] with
  | Some (fs', _, Ok _) =>
      flags.Parameters fs' = Ok ["-x"] /\ flags.Parameters fs' <> Ok ["--x"]
  | _ => False
  end.
Proof. vm_compute. split; [reflexivity | discriminate]. Qed.

(** C5, amended (flags.go:74-80). In permissive mode, for a marker token
    whose stripped name is not in a registry whose parameters are readable,
    the iteration appends one dash followed by the stripped name to the
    parameters, changes nothing else, raises no error and goes on with the
    next token; the appended token is the original one, character for
    character, when the original has exactly one leading dash. *)
Theorem C5_unknown_flag_permissive
    (env : Env) (fs : flags.Flags) (a : string) (rest ps : list string) (h : heap) :
  flags.IgnoreUnknown fs = true ->
  isMarker a = true ->
  flags.flags fs !! GoStrings.TrimLeft a "-" = None ->
  flags.Parameters fs = Ok ps ->
  let tok := "-" ++ GoStrings.TrimLeft a "-" in
  let fs' := {| flags.IgnoreUnknown := true;
                flags.flags := <[ "" := flags.ofStrings (ps ++ [tok])%list ]> (flags.flags fs) |} in
  flags.iteration env a rest fs h = flags.Continue rest fs' h
  /\ flags.Parameters fs' = Ok (ps ++ [tok])%list
  /\ (forall k, k <> "" -> flags.flags fs' !! k = flags.flags fs !! k)
  /\ flags.Apply env fs (a :: rest) h = flags.Apply env fs' rest h
  /\ (forall n, a = "-" ++ n -> GoStrings.HasPrefix n "-" = false -> tok = a).
Proof.
  intros Hperm Hmark Hunknown Hps tok fs'.
  assert (Hit : flags.iteration env a rest fs h = flags.Continue rest fs' h).
  { unfold flags.iteration.
    rewrite (isMarker_false_iff _ Hmark), Hunknown, Hperm.
    unfold flags.appendParameter. rewrite Hps.
    change (GoStrings.Join ["-"; GoStrings.TrimLeft a "-"] "") with tok.
    rewrite Hperm. reflexivity. }
  repeat split.
  - exact Hit.
  - unfold flags.Parameters, fs'. cbn [flags.flags].
    rewrite lookup_insert_eq. now rewrite toStrings_ofStrings.
  - intros k Hk. unfold fs'. cbn [flags.flags].
    now rewrite lookup_insert_ne by congruence.
  - now rewrite Apply_cons, Hit.
  - intros n -> Hn. unfold tok.
    change ("-" ++ n) with (dashes 1 ++ n) at 1.
    now rewrite TrimLeft_dashes.
Qed.

Lemma C5_witness :
  flags.iteration defaultEnv "-x" ["y"] regBool [vbool false]
  = flags.Continue ["y"]
      {| flags.IgnoreUnknown := true;
         flags.flags := <[ "" := flags.ofStrings ["-x"] ]> (flags.flags regBool) |}
      [vbool false].
Proof.
  apply (C5_unknown_flag_permissive defaultEnv regBool "-x" ["y"] [] [vbool false]);
    reflexivity.
Defined.

(** *** C7 *)

(** C7 (flags.go:85-89). The claim: a lone "-" after a known flag is
    taken as the flag's value. What the code does instead: the look-ahead of
    line 86 rejects every token that starts with a dash, the lone dash
    included (line 69 makes the exception for it, line 86 does not), so the
    iteration is the one for an absent value and the "-" stays in the
    stream for the next iteration. *)
Theorem C7_lone_dash_is_not_consumed
    (env : Env) (fs : flags.Flags) (a : string) (v : Val)
    (r : list string) (h : heap) :
  isMarker a = true ->
  flags.flags fs !! GoStrings.TrimLeft a "-" = Some v ->
  flags.lookahead ("-" :: r) = ("", false, "-" :: r)
  /\ flags.iteration env a ("-" :: r) fs h
     = match flags.iteration env a [] fs h with
       | flags.Continue _ fs' h' => flags.Continue ("-" :: r) fs' h'
       | flags.Return fs' h' o => flags.Return fs' h' o
       end.
Proof.
  intros Hmark Hv. split; [reflexivity|].
  unfold flags.iteration.
  rewrite (isMarker_false_iff _ Hmark), Hv.
  change (flags.lookahead ("-" :: r)) with ("", false, "-" :: r).
  change (flags.lookahead []) with ("", false, @nil string).
  cbv iota beta.
  destruct (reflect.TypeOf v) as [to|]; [|reflexivity].
  destruct (values.ValueFromString env "" to h) as [h1 [iVal|err|msg]] eqn:EV;
    [| |reflexivity].
  - destruct (flags.SetValue v iVal h1) as [h2 [?|?|?]]; reflexivity.
  - destruct (bool_decide _) eqn:EK; [|reflexivity].
    apply bool_decide_eq_true in EK.
    destruct (KindOf_Bool _ EK) as [nm ->].
    rewrite ValueFromString_bool_empty in EV. discriminate.
Qed.

Lemma C7_witness :
  flags.iteration defaultEnv "-name" ["-"] regName [vstring "old"]
  = match flags.iteration defaultEnv "-name" [] regName [vstring "old"] with
    | flags.Continue _ fs' h' => flags.Continue ["-"] fs' h'
    | flags.Return fs' h' o => flags.Return fs' h' o
    end.
Proof.
  apply (C7_lone_dash_is_not_consumed defaultEnv regName "-name"
           (reflect.VPtr reflect.string_ 0%nat) [] [vstring "old"]);
    reflexivity.
Defined.

(** [Apply("-name", "-")] on a string flag: the flag receives the empty
    string and the dash ends up as a parameter. *)
Example Apply_name_lone_dash :
  match flags.Apply defaultEnv regName ["-name"; "-"] [vstring "old"] with
  | Some (fs', h', Ok _) =>
      flags.Parameters fs' = Ok ["-"] /\ h' !! 0%nat = Some (vstring "")
  | _ => False
  end.
Proof. vm_compute. split; reflexivity. Qed.

(** *** C9 *)

(** C9, as stated, fails for a registered name that itself starts with a
    dash (flags.go:74-75, 113-136): [AddFlag] accepts the name "-v", yet
    the token made of one dash and that name is stripped to "v", which is
    not registered; in strict mode [Apply] reports an unknown flag. *)
Lemma C9_dash_name_not_resolved :
  flags.flags regDashName !! "-v" = Some (reflect.VPtr reflect.bool_ 0%nat)
  /\ flags.Apply defaultEnv regDashName ["-" ++ "-v"] [vbool false]
     = Some (regDashName, [vbool false], Fail (ErrUnknownFlag "v")).
Proof. split; reflexivity. Qed.

(** C9, amended (flags.go:74-80). For every registered flag name [n] that
    is not empty and does not start with a dash, and every [k >= 1], the
    token of [k] dashes followed by [n] is looked up under [n] and so finds
    [n]'s binding; [Apply] treats it exactly as it treats "-" followed by
    [n], whatever follows and whatever the state. *)
Theorem C9_leading_dashes_interchangeable
    (env : Env) (fs : flags.Flags) (n : string) (v : Val) (k : nat)
    (rest : list string) (h : heap) :
  (1 <= k)%nat ->
  n <> "" ->
  GoStrings.HasPrefix n "-" = false ->
  flags.flags fs !! n = Some v ->
  isMarker (dashes k ++ n) = true
  /\ flags.flags fs !! GoStrings.TrimLeft (dashes k ++ n) "-" = Some v
  /\ flags.iteration env (dashes k ++ n) rest fs h
     = flags.iteration env ("-" ++ n) rest fs h
  /\ flags.Apply env fs ((dashes k ++ n) :: rest) h
     = flags.Apply env fs (("-" ++ n) :: rest) h.
Proof.
  intros Hk Hn Hdash Hv.
  destruct k as [|k]; [lia|].
  assert (Hm : isMarker (dashes (S k) ++ n) = true) by now apply isMarker_dashes.
  assert (Hit : flags.iteration env (dashes (S k) ++ n) rest fs h
                = flags.iteration env ("-" ++ n) rest fs h).
  { apply iteration_same_name.
    - exact Hm.
    - now apply (isMarker_dashes 0).
    - rewrite TrimLeft_dashes by exact Hdash.
      change ("-" ++ n) with (dashes 1 ++ n).
      now rewrite TrimLeft_dashes. }
  repeat split.
  - exact Hm.
  - now rewrite TrimLeft_dashes.
  - exact Hit.
  - now rewrite !Apply_cons, Hit.
Qed.

Lemma C9_witness :
  flags.Apply defaultEnv regBool ["---v"; "false"] [vbool true]
  = flags.Apply defaultEnv regBool ["-v"; "false"] [vbool true].
Proof.
  apply (C9_leading_dashes_interchangeable defaultEnv regBool "v"
           (reflect.VPtr reflect.bool_ 0%nat) 3 ["false"] [vbool true]).
  - lia.
  - discriminate.
  - reflexivity.
  - reflexivity.
Defined.

(** *** C2 *)

Lemma lookup_foldl_insert (v : Val) (pre : list string) (m : gmap string Val)
    (k : string) :
  foldl (fun m n => <[ n := v ]> m) m pre !! k
  = if decide (k ∈ pre) then Some v else m !! k.
Proof.
  revert m. induction pre as [|a pre IH]; intros m; cbn [foldl].
  - now rewrite decide_False by apply not_elem_of_nil.
  - rewrite IH. destruct (decide (k ∈ pre)) as [Hin|Hnin].
    + rewrite decide_True by (apply elem_of_cons; now right). reflexivity.
    + destruct (decide (k = a)) as [->|Hne].
      * rewrite decide_True by (apply elem_of_cons; now left).
        apply lookup_insert_eq.
      * rewrite decide_False by (rewrite elem_of_cons; tauto).
        now apply lookup_insert_ne.
Qed.

(** the loop of [AddFlag] stops at the first given name that is taken,
    having registered the names before it *)
Lemma addNames_duplicate (v : Val) (names : list string) (m : gmap string Val) :
  (exists n, n ∈ names /\ is_Some (m !! n)) ->
  exists pre n post,
    names = (pre ++ n :: post)%list
    /\ NoDup pre
    /\ (forall k, k ∈ pre -> m !! k = None)
    /\ (is_Some (m !! n) \/ n ∈ pre)
    /\ flags.addNames v names m
       = (foldl (fun m k => <[ k := v ]> m) m pre, Fail (ErrDuplicateFlag n)).
Proof.
  revert m. induction names as [|a r IH]; intros m (n0 & Hin & Hsome).
  - now apply elem_of_nil in Hin.
  - cbn [flags.addNames]. destruct (m !! a) as [x|] eqn:Ea.
    + exists [], a, r. repeat split.
      * constructor.
      * intros k Hk. now apply elem_of_nil in Hk.
      * left. rewrite Ea. eauto.
    + assert (Hn0 : n0 ∈ r).
      { apply elem_of_cons in Hin as [->|Hin]; [|exact Hin].
        rewrite Ea in Hsome. now destruct Hsome. }
      destruct (IH (<[ a := v ]> m)) as (pre & n & post & -> & Hnd & Hfree & Hdup & Heq).
      { exists n0. split; [exact Hn0|].
        destruct (decide (a = n0)) as [->|Hne].
        - rewrite lookup_insert_eq. eauto.
        - now rewrite lookup_insert_ne. }
      assert (Ha : a ∉ pre).
      { intros Hin'. specialize (Hfree a Hin'). now rewrite lookup_insert_eq in Hfree. }
      exists (a :: pre), n, post. repeat split.
      * now constructor.
      * intros k Hk. apply elem_of_cons in Hk as [->|Hk]; [exact Ea|].
        specialize (Hfree k Hk).
        destruct (decide (a = k)) as [->|Hne]; [contradiction|].
        now rewrite lookup_insert_ne in Hfree.
      * destruct Hdup as [Hd|Hd].
        -- destruct (decide (a = n)) as [->|Hne].
           ++ right. apply elem_of_cons. now left.
           ++ left. now rewrite lookup_insert_ne in Hd.
        -- right. apply elem_of_cons. now right.
      * exact Heq.
Qed.

(** C2, as stated, fails (flags.go:129-134): the loop of [AddFlag] inserts
    each name before it looks at the next, so with "v" registered the call
    [AddFlag(&x, "verbose", "v")] returns the duplicate-name error for "v"
    and leaves "verbose" registered. *)
Lemma C2_earlier_names_stay_registered :
  let p := reflect.VPtr reflect.bool_ 1%nat in
  let '(fs', r) := flags.AddFlag regBool p ["verbose"; "v"] in
  r = Fail (ErrDuplicateFlag "v")
  /\ flags.flags regBool !! "verbose" = None
  /\ flags.flags fs' !! "verbose" = Some p
  /\ fs' <> regBool.
Proof.
  cbv zeta.
  destruct (flags.AddFlag regBool _ _) as [fs' r] eqn:E.
  vm_compute in E. injection E as <- <-.
  repeat split.
  intros Heq.
  assert (H : flags.flags regBool !! "verbose" = None) by reflexivity.
  rewrite <- Heq in H. vm_compute in H. discriminate.
Qed.

(** C2, amended (flags.go:113-136). When a non-nil pointer is registered
    under names of which at least one is already in the registry, [AddFlag]
    returns the duplicate-name error for the first given name that is taken
    (in the registry, or given earlier in the same call); the names before
    it are registered to the pointer, no name from it on is registered by
    the call, and every binding that existed before the call is unchanged.
    The registry is exactly as before when that first taken name is the
    first name given. *)
Theorem C2_AddFlag_duplicate
    (fs : flags.Flags) (e : rtype) (l : reflect.loc) (names : list string) :
  (exists n, n ∈ names /\ is_Some (flags.flags fs !! n)) ->
  exists pre n post fs',
    names = (pre ++ n :: post)%list
    /\ NoDup pre
    /\ (forall k, k ∈ pre -> flags.flags fs !! k = None)
    /\ (is_Some (flags.flags fs !! n) \/ n ∈ pre)
    /\ flags.AddFlag fs (reflect.VPtr e l) names = (fs', Fail (ErrDuplicateFlag n))
    /\ flags.IgnoreUnknown fs' = flags.IgnoreUnknown fs
    /\ (forall k, flags.flags fs' !! k
                  = if decide (k ∈ pre) then Some (reflect.VPtr e l)
                    else flags.flags fs !! k)
    /\ (forall k, is_Some (flags.flags fs !! k) ->
                  flags.flags fs' !! k = flags.flags fs !! k)
    /\ (pre = [] -> fs' = fs).
Proof.
  intros Hdup.
  destruct (addNames_duplicate (reflect.VPtr e l) names (flags.flags fs) Hdup)
    as (pre & n & post & Hnames & Hnd & Hfree & Hn & Heq).
  exists pre, n, post,
    {| flags.IgnoreUnknown := flags.IgnoreUnknown fs;
       flags.flags := foldl (fun m k => <[ k := reflect.VPtr e l ]> m)
                        (flags.flags fs) pre |}.
  repeat split; try assumption.
  - unfold flags.AddFlag.
    destruct names as [|a r]; [now destruct pre|].
    cbn [flags.IsNil reflect.TypeOf reflect.KindOf option_map].
    rewrite bool_decide_eq_true_2 by reflexivity. cbn [negb].
    now rewrite Heq.
  - intros k. cbn [flags.flags]. apply lookup_foldl_insert.
  - intros k Hk. cbn [flags.flags]. rewrite lookup_foldl_insert.
    destruct (decide (k ∈ pre)) as [Hin|]; [|reflexivity].
    rewrite (Hfree k Hin) in Hk. now destruct Hk.
  - intros ->. now destruct fs.
Qed.

Lemma C2_witness :
  exists pre n post fs',
    ["v"; "verbose"] = (pre ++ n :: post)%list
    /\ flags.AddFlag regBool (reflect.VPtr reflect.bool_ 1%nat) ["v"; "verbose"]
       = (fs', Fail (ErrDuplicateFlag n))
    /\ (pre = [] -> fs' = regBool).
Proof.
  destruct (C2_AddFlag_duplicate regBool reflect.bool_ 1%nat ["v"; "verbose"])
    as (pre & n & post & fs' & H1 & _ & _ & _ & H2 & _ & _ & _ & H3).
  - exists "v". split; [apply elem_of_cons; now left | now eexists].
  - exists pre, n, post, fs'. auto.
Defined.

(** *** Values: cells freshly allocated *)

Lemma store_fresh (h : heap) (z x : Val) :
  <[ length h := x ]> (h ++ [z])%list = (h ++ [x])%list.
Proof.
  rewrite insert_app_r_alt by lia. now rewrite Nat.sub_diag.
Qed.

Lemma load_fresh (h : heap) (x : Val) :
  (h ++ [x])%list !! length h = Some x.
Proof. now apply list_lookup_middle. Qed.

(** [stringFromString] on the predeclared [string] type: the token itself,
    one cell allocated on the way *)
Lemma stringFromString_string (env : Env) (s : string) (h : heap) :
  values.ValueFromString env s reflect.string_ h
  = ((h ++ [vstring s])%list, Ok (vstring s)).
Proof.
  cbn [values.ValueFromString reflect.string_].
  unfold values.stringFromString, reflectOps.New, bind, alloc, ret.
  cbn [reflect.KindOf reflect.scalarKind reflectOps.SetElem reflect.TypeOf].
  rewrite bool_decide_eq_true_2 by reflexivity.
  unfold store. cbn [reflectOps.ElemInterface]. unfold load.
  rewrite store_fresh, load_fresh. reflexivity.
Qed.

Lemma Split_empty (explode : string -> list string) (sep : string) :
  sep <> "" -> GoStrings.Split explode "" sep = [""].
Proof. destruct sep; [contradiction | reflexivity]. Qed.

(** *** C3 *)

(** C3 (values.go:167-182). The claim: the empty token coerced to a slice
    type gives a slice of length zero. What the code does instead:
    [strings.Split("", sep)] has one field, the empty string, for every
    non-empty separator, and [sliceFromString] coerces and appends it; so
    for [[]string] the result is the one-element slice holding "", and for
    every element type a result, when there is one, has exactly one
    element. *)
Theorem C3_empty_token_gives_one_element (env : Env) (h : heap) :
  SliceDelimiter env <> "" ->
  values.ValueFromString env "" (reflect.SliceOf reflect.string_) h
  = ((h ++ [vstring ""])%list,
     Ok (reflect.VSlice (reflect.SliceOf reflect.string_) [vstring ""]))
  /\ (forall (e : rtype) (h' : heap) (v : Val),
        values.ValueFromString env "" (reflect.SliceOf e) h = (h', Ok v) ->
        exists x, v = reflect.VSlice (reflect.SliceOf e) [x]).
Proof.
  intros Hsep. split.
  - cbn [values.ValueFromString]. unfold values.sliceBody.
    rewrite (Split_empty _ _ Hsep).
    unfold bind at 1. cbn [values.sliceLoop].
    change (values.ValueFromString env "" (reflect.Basic "string" reflect.SString))
      with (values.ValueFromString env "" reflect.string_).
    rewrite stringFromString_string.
    unfold bind, ret. cbn [vstring reflect.TypeOf].
    rewrite bool_decide_eq_true_2 by reflexivity. reflexivity.
  - intros e h' v. cbn [values.ValueFromString]. unfold values.sliceBody.
    rewrite (Split_empty _ _ Hsep).
    unfold bind at 1. cbn [values.sliceLoop].
    destruct (values.ValueFromString env "" e h) as [h1 [sel|err|msg]];
      [|discriminate|discriminate].
    unfold bind at 1.
    destruct (match sel with
              | reflect.VPtr _ _ => reflectOps.ElemInterface sel
              | reflect.VNilOf (reflect.PtrTo _) => panic "reflect.Append: zero Value"
              | _ => ret sel
              end h1) as [h2 [ev|err|msg]]; [|discriminate|discriminate].
    destruct (bool_decide _); [|discriminate].
    unfold ret. cbn [app]. intros [= _ <-]. now exists ev.
Qed.

Lemma C3_witness :
  values.ValueFromString defaultEnv "" (reflect.SliceOf reflect.string_) []
  = ([vstring ""], Ok (reflect.VSlice (reflect.SliceOf reflect.string_) [vstring ""])).
Proof.
  apply (C3_empty_token_gives_one_element defaultEnv []). discriminate.
Defined.

(** *** C4 *)

(** C4 (values.go:42-80, 198-235). The claim: a successful coercion
    returns a value of exactly the target type. What the code does instead:
    [floatFromString] returns the pointer made by [reflect.New], so a float
    target gets a pointer to a float; [intFromString] returns an [int]
    whatever the integer target is, so [int64] gets an [int]; and a
    duration target gets a pointer to a duration. *)
Theorem C4_result_type_is_not_the_target (env : Env) (h : heap) :
  values.ValueFromString env "" reflect.float64_ h
  = ((h ++ [reflect.VFloat reflect.float64_ (S754_zero false)])%list,
     Ok (reflect.VPtr reflect.float64_ (length h)))
  /\ reflect.TypeOf (reflect.VPtr reflect.float64_ (length h))
     = Some (reflect.PtrTo reflect.float64_)
  /\ values.ValueFromString env "5" reflect.int64_ h
     = (h, Ok (reflect.VInt reflect.int_ 5))
  /\ reflect.TypeOf (reflect.VInt reflect.int_ 5) = Some reflect.int_
  /\ values.ValueFromString env "" reflect.time_Duration h
     = ((h ++ [reflect.VInt reflect.time_Duration 0])%list,
        Ok (reflect.VPtr reflect.time_Duration (length h)))
  /\ ~ (forall (s : string) (t : rtype) (h' : heap) (v : Val),
          values.ValueFromString env s t h = (h', Ok v) ->
          reflect.TypeOf v = Some t).
Proof.
  assert (Hf : values.ValueFromString env "" reflect.float64_ h
               = ((h ++ [reflect.VFloat reflect.float64_ (S754_zero false)])%list,
                  Ok (reflect.VPtr reflect.float64_ (length h)))).
  { cbn [values.ValueFromString reflect.float64_].
    unfold values.floatFromString, reflectOps.New, bind, alloc, ret.
    cbn [String.eqb negb reflect.KindOf reflect.scalarKind reflectOps.SetElem
         reflect.TypeOf].
    rewrite bool_decide_eq_true_2 by reflexivity.
    unfold store. now rewrite store_fresh. }
  repeat split; try exact Hf; try reflexivity.
  intros Hall. specialize (Hall "" reflect.float64_ _ _ Hf). discriminate.
Qed.

(** *** C6 *)

(** C6 (values.go:119-165). The claim: a struct type other than URL and
    Time that has neither decoding method gets an error value for a
    non-empty token, and the call does not abort. What the code does
    instead: line 142 asks [reflect.TypeOf] for the type of a nil interface
    value, which is the nil [Type], and [Implements] panics on a nil
    argument; every such struct type, with or without the methods, makes
    the call panic, and the error of line 163 is never returned. *)
Theorem C6_struct_without_capability_panics
    (env : Env) (name : string) (ifaces : list string) (s : string) (h : heap) :
  s <> "" ->
  reflect.StructT name ifaces <> reflect.url_URL ->
  reflect.StructT name ifaces <> reflect.time_Time ->
  reflectOps.satisfies (reflect.StructT name ifaces) "json.Unmarshaler" = false ->
  reflectOps.satisfies (reflect.StructT name ifaces) "encoding.TextUnmarshaler" = false ->
  values.ValueFromString env s (reflect.StructT name ifaces) h
  = ((h ++ [reflect.VData (reflect.StructT name ifaces) ""])%list,
     Panic "reflect: nil type passed to Type.Implements").
Proof.
  intros Hs Hurl Htime _ _.
  cbn [values.ValueFromString].
  unfold values.structureFromString, reflectOps.New, bind, alloc, ret.
  cbn [reflect.Zero].
  rewrite (proj2 (String.eqb_neq s "")) by exact Hs.
  rewrite !bool_decide_eq_false_2 by assumption.
  reflexivity.
Qed.

Lemma C6_witness :
  values.ValueFromString defaultEnv "x" (reflect.StructT "main.Point" []) []
  = ([reflect.VData (reflect.StructT "main.Point" []) ""],
     Panic "reflect: nil type passed to Type.Implements").
Proof.
  apply (C6_struct_without_capability_panics defaultEnv "main.Point" [] "x" []);
    try discriminate; reflexivity.
Defined.

(** the pointer case of [ValueFromString] stores the coerced value into a
    cell of the pointee type, so it panics where the coerced value is not of
    that type: for a pointer to [float64] and for a pointer to [int64] *)
Example ValueFromString_pointer_targets_panic :
  values.ValueFromString defaultEnv "" (reflect.PtrTo reflect.float64_) []
  = ([reflect.VFloat reflect.float64_ (S754_zero false);
      reflect.VFloat reflect.float64_ (S754_zero false)],
     Panic "reflect.Set: value is not assignable to type")
  /\ values.ValueFromString defaultEnv "5" (reflect.PtrTo reflect.int64_) []
     = ([reflect.VInt reflect.int64_ 0],
        Panic "reflect.Set: value is not assignable to type").
Proof. split; reflexivity. Qed.

(** *** Commands *)

Lemma index_in_keys (cmds : mainline.Commands) (k : string) (i : Val) :
  mainline.index cmds k = Some i -> k ∈ mainline.keys cmds.
Proof.
  induction cmds as [|[k' i'] r IH]; [discriminate|].
  cbn [mainline.index mainline.keys map fst].
  destruct (String.eqb k' k) eqn:E.
  - apply String.eqb_eq in E as ->. intros _. apply elem_of_cons. now left.
  - intros H. apply elem_of_cons. right. now apply IH.
Qed.

(** when exactly one key matches the argument under case folding, that key
    is the one [findCommand] returns, in whatever order the table is
    ranged over *)
Lemma findCommand_unique (env : Env) (cmds : mainline.Commands) (arg k0 : string) :
  k0 ∈ mainline.keys cmds ->
  GoStrings.EqualFold (unicodeFold env) k0 arg = true ->
  (forall k, k ∈ mainline.keys cmds ->
             GoStrings.EqualFold (unicodeFold env) k arg = true -> k = k0) ->
  mainline.findCommand env cmds arg = (k0, true).
Proof.
  intros Hin Hfold Huniq.
  induction cmds as [|[k i] r IH]; [now apply elem_of_nil in Hin|].
  cbn [mainline.findCommand].
  change (mainline.keys ((k, i) :: r)) with (k :: mainline.keys r) in Hin, Huniq.
  destruct (GoStrings.EqualFold (unicodeFold env) k arg) eqn:E.
  - rewrite (Huniq k); [reflexivity | apply elem_of_cons; now left | exact E].
  - apply IH.
    + apply elem_of_cons in Hin as [->|Hin]; [|exact Hin].
      rewrite Hfold in E. discriminate.
    + intros k' Hk'. apply Huniq. apply elem_of_cons. now right.
Qed.

(** *** C8 *)

(** C8, as stated, fails (findCommand, lines 65-72). "BuId" has four
    letters and is not "Build" under case folding, so with "Build"
    registered [findCommand] finds nothing and [Run] returns the
    not-a-known-command error. And where a second name folds to the same
    text, the entry found is the first the range visits, which need not be
    the one named "Build". *)
Lemma C8_BuId_is_not_Build :
  mainline.findCommand defaultEnv buildTable "BuId" = ("", false)
  /\ mainline.Run defaultEnv noVal noVal isFuncVal buildTable ["BuId"]
       mainline.GlobalFlags []
     = Some ({| flags.IgnoreUnknown := true;
                flags.flags := <[ "" := flags.ofStrings ["BuId"] ]> ∅ |},
             [], mainline.Returns (ErrNotKnownCommand "BuId"))
  /\ mainline.findCommand defaultEnv twoBuilds "build" = ("BUILD", true).
Proof. repeat split; reflexivity. Qed.

(** C8, amended (findCommand, lines 65-72; Run, lines 19-61). For every
    command table with an entry named "Build" whose handler is not nil and
    with no other name equal to the token under case folding, each of the
    tokens "build" and "BUILD" is resolved by [findCommand] to the name
    "Build", and [Run] on that token alone (the token not being the
    program name, the global flags being as created) hands that entry's
    handler to the invokers with no arguments. *)
Theorem C8_Build_resolved_case_insensitively
    (env : Env) (IsHelpCommand IsMethod IsFunc : Val -> bool)
    (cmds : mainline.Commands) (i : Val) (tok : string) (h : heap) :
  tok = "build" \/ tok = "BUILD" ->
  mainline.index cmds "Build" = Some i ->
  i <> reflect.VNil ->
  (forall k, k ∈ mainline.keys cmds ->
             GoStrings.EqualFold (unicodeFold env) k tok = true -> k = "Build") ->
  tok <> os_Args0 env ->
  mainline.findCommand env cmds tok = ("Build", true)
  /\ mainline.Run env IsHelpCommand IsMethod IsFunc cmds [tok] mainline.GlobalFlags h
     = Some ({| flags.IgnoreUnknown := true;
                flags.flags := <[ "" := flags.ofStrings [tok] ]> ∅ |},
             h, mainline.dispatch IsHelpCommand IsMethod IsFunc i cmds []).
Proof.
  intros Htok Hidx Hnil Huniq Hprog.
  assert (Hfind : mainline.findCommand env cmds tok = ("Build", true)).
  { apply findCommand_unique.
    - now apply index_in_keys with i.
    - destruct Htok as [->| ->]; reflexivity.
    - exact Huniq. }
  split; [exact Hfind|].
  unfold mainline.Run.
  rewrite (proj2 (String.eqb_neq tok (os_Args0 env))) by exact Hprog.
  unfold mainline.runArgs.
  assert (Happly : flags.Apply env mainline.GlobalFlags [tok] h
                   = Some ({| flags.IgnoreUnknown := true;
                              flags.flags := <[ "" := flags.ofStrings [tok] ]> ∅ |},
                           h, Ok tt)).
  { destruct Htok as [->| ->]; reflexivity. }
  rewrite Happly. unfold mainline.resolve, flags.Parameters.
  cbn [flags.flags]. rewrite lookup_insert_eq, toStrings_ofStrings, Hfind.
  cbn [negb]. rewrite Hidx.
  destruct i; try reflexivity. contradiction.
Qed.

Lemma C8_witness :
  mainline.findCommand defaultEnv buildTable "BUILD" = ("Build", true).
Proof.
  apply (C8_Build_resolved_case_insensitively defaultEnv noVal noVal isFuncVal
           buildTable (handler "main.build") "BUILD" []).
  - now right.
  - reflexivity.
  - discriminate.
  - intros k Hk _. apply list_elem_of_singleton in Hk. exact Hk.
  - discriminate.
Defined.

(** *** C10 *)

(** C10, as stated, fails (Run, lines 19-23): [Run] drops one leading
    program name, and [Run] invoked on the remaining tokens would drop one
    more if they start with the program name again. With "app" the program
    name and a command registered as "app", [Run("app", "app", "x")]
    selects that command with the argument "x", while [Run("app", "x")], the
    call on the remaining tokens, looks for a command "x" and finds none. *)
Lemma C10_only_one_token_is_dropped :
  mainline.Run defaultEnv noVal noVal isFuncVal appTable ["app"; "app"; "x"]
    mainline.GlobalFlags []
  = Some ({| flags.IgnoreUnknown := true;
             flags.flags := <[ "" := flags.ofStrings ["app"; "x"] ]> ∅ |},
          [], mainline.CallFunc (handler "main.run") ["x"])
  /\ mainline.Run defaultEnv noVal noVal isFuncVal appTable ["app"; "x"]
       mainline.GlobalFlags []
     = Some ({| flags.IgnoreUnknown := true;
                flags.flags := <[ "" := flags.ofStrings ["x"] ]> ∅ |},
             [], mainline.Returns (ErrNotKnownCommand "x"))
  /\ mainline.Run defaultEnv noVal noVal isFuncVal appTable ["app"; "app"; "x"]
       mainline.GlobalFlags []
     <> mainline.Run defaultEnv noVal noVal isFuncVal appTable ["app"; "x"]
          mainline.GlobalFlags [].
Proof.
  assert (H1 : mainline.Run defaultEnv noVal noVal isFuncVal appTable
                 ["app"; "app"; "x"] mainline.GlobalFlags []
               = Some ({| flags.IgnoreUnknown := true;
                          flags.flags := <[ "" := flags.ofStrings ["app"; "x"] ]> ∅ |},
                       [], mainline.CallFunc (handler "main.run") ["x"]))
    by (vm_compute; reflexivity).
  assert (H2 : mainline.Run defaultEnv noVal noVal isFuncVal appTable
                 ["app"; "x"] mainline.GlobalFlags []
               = Some ({| flags.IgnoreUnknown := true;
                          flags.flags := <[ "" := flags.ofStrings ["x"] ]> ∅ |},
                       [], mainline.Returns (ErrNotKnownCommand "x")))
    by (vm_compute; reflexivity).
  split; [exact H1|]. split; [exact H2|].
  rewrite H1, H2. discriminate.
Qed.

(** C10, amended (Run, lines 19-23). When the first token of the argument
    list is the program name, [Run] drops that token, and only that one,
    and goes on with flag parsing and command resolution on the remaining
    tokens; this is [Run] on the remaining tokens whenever they do not
    start with the program name again. The command name therefore never
    comes from that first token: on the program name alone, with global
    flags as created and no entry for the empty name, [Run] reports that no
    command was given, also when an entry carries the program name. *)
Theorem C10_program_name_is_dropped
    (env : Env) (IsHelpCommand IsMethod IsFunc : Val -> bool)
    (cmds : mainline.Commands) (rest : list string) (G : flags.Flags) (h : heap) :
  mainline.Run env IsHelpCommand IsMethod IsFunc cmds (os_Args0 env :: rest) G h
  = mainline.runArgs env IsHelpCommand IsMethod IsFunc cmds rest G h
  /\ (head rest <> Some (os_Args0 env) ->
      mainline.Run env IsHelpCommand IsMethod IsFunc cmds (os_Args0 env :: rest) G h
      = mainline.Run env IsHelpCommand IsMethod IsFunc cmds rest G h)
  /\ (mainline.findCommand env cmds "" = ("", false) ->
      mainline.Run env IsHelpCommand IsMethod IsFunc cmds [os_Args0 env]
        mainline.GlobalFlags h
      = Some (mainline.GlobalFlags, h, mainline.Returns ErrNoCommandGiven)).
Proof.
  assert (Hdrop : forall r G' h',
    mainline.Run env IsHelpCommand IsMethod IsFunc cmds (os_Args0 env :: r) G' h'
    = mainline.runArgs env IsHelpCommand IsMethod IsFunc cmds r G' h').
  { intros r G' h'. unfold mainline.Run. now rewrite String.eqb_refl. }
  repeat split.
  - apply Hdrop.
  - intros Hhead. rewrite Hdrop. unfold mainline.Run.
    destruct rest as [|a r]; [reflexivity|].
    destruct (String.eqb a (os_Args0 env)) eqn:E; [|reflexivity].
    apply String.eqb_eq in E as ->. now contradiction Hhead.
  - intros Hnone. rewrite Hdrop.
    unfold mainline.runArgs, flags.Apply. cbn [length flags.loop].
    unfold mainline.resolve.
    change (flags.Parameters mainline.GlobalFlags) with (@Ok (list string) []).
    cbv iota. rewrite Hnone. reflexivity.
Qed.

Lemma C10_witness :
  mainline.index appTable (os_Args0 defaultEnv) = Some (handler "main.run")
  /\ mainline.Run defaultEnv noVal noVal isFuncVal appTable ["app"]
       mainline.GlobalFlags []
     = Some (mainline.GlobalFlags, [], mainline.Returns ErrNoCommandGiven)
  /\ mainline.Run defaultEnv noVal noVal isFuncVal appTable ["app"; "x"]
       mainline.GlobalFlags []
     = mainline.Run defaultEnv noVal noVal isFuncVal appTable ["x"]
         mainline.GlobalFlags [].
Proof.
  split; [reflexivity|]. split.
  - apply (C10_program_name_is_dropped defaultEnv noVal noVal isFuncVal appTable []
             mainline.GlobalFlags []).
    reflexivity.
  - apply (C10_program_name_is_dropped defaultEnv noVal noVal isFuncVal appTable ["x"]
             mainline.GlobalFlags []).
    discriminate.
Defined.

(** ** Further properties of [values] *)

(** *** Coercion only allocates *)

Lemma grows_ret {A} (a : A) : grows (ret a).
Proof. intros h h' o [= <- _]. reflexivity. Qed.

Lemma grows_fail {A} (e : error) : grows (@fail A e).
Proof. intros h h' o [= <- _]. reflexivity. Qed.

Lemma grows_panic {A} (msg : string) : grows (@panic A msg).
Proof. intros h h' o [= <- _]. reflexivity. Qed.

Lemma grows_lift {A} (r : outcome A) : grows (lift r).
Proof. intros h h' o [= <- _]. reflexivity. Qed.

Lemma grows_alloc (v : Val) : grows (alloc v).
Proof. intros h h' o [= <- _]. now apply prefix_app_r. Qed.

Lemma grows_load (l : reflect.loc) : grows (load l).
Proof. intros h h' o. unfold load. destruct (h !! l); intros [= <- _]; reflexivity. Qed.

Lemma grows_bind {A B} (m : M A) (k : A -> M B) :
  grows m -> (forall a, grows (k a)) -> grows (bind m k).
Proof.
  intros Hm Hk h h' o. unfold bind.
  destruct (m h) as [h1 [a|e|msg]] eqn:E.
  - intros H. etransitivity; [exact (Hm _ _ _ E) | exact (Hk _ _ _ _ H)].
  - intros [= <- _]. exact (Hm _ _ _ E).
  - intros [= <- _]. exact (Hm _ _ _ E).
Qed.

(** [reflect.New] followed by a [Set] of the new cell: the cell is the next
    free address and holds the value, or the [Set] panics on its type *)
Lemma New_SetElem {B} (t : rtype) (x : Val) (k : Val -> M B) (h : heap) :
  bind (reflectOps.New t) (fun p => bind (reflectOps.SetElem p x) (fun _ => k p)) h
  = if bool_decide (reflect.TypeOf x = Some t)
    then k (reflect.VPtr t (length h)) (h ++ [x])%list
    else ((h ++ [reflect.Zero t])%list,
          Panic "reflect.Set: value is not assignable to type").
Proof.
  unfold reflectOps.New, bind, alloc, ret. cbn [reflectOps.SetElem].
  destruct (bool_decide (reflect.TypeOf x = Some t)).
  - unfold store. now rewrite store_fresh.
  - reflexivity.
Qed.

Lemma grows_New_SetElem {B} (t : rtype) (x : Val) (k : Val -> M B) :
  (forall p, grows (k p)) ->
  grows (bind (reflectOps.New t)
           (fun p => bind (reflectOps.SetElem p x) (fun _ => k p))).
Proof.
  intros Hk h h' o. rewrite New_SetElem.
  destruct (bool_decide _).
  - intros H. apply Hk in H. etransitivity; [|exact H]. now apply prefix_app_r.
  - intros [= <- _]. now apply prefix_app_r.
Qed.

Lemma grows_New (t : rtype) : grows (reflectOps.New t).
Proof. apply grows_bind; [apply grows_alloc | intros l; apply grows_ret]. Qed.

Lemma grows_ElemInterface (p : Val) : grows (reflectOps.ElemInterface p).
Proof. destruct p; try apply grows_panic. apply grows_load. Qed.

Lemma grows_structureFromString (env : Env) (s : string) (t : rtype) :
  grows (values.structureFromString env s t).
Proof.
  unfold values.structureFromString.
  apply grows_bind; [apply grows_New|]. intros pStr.
  destruct (String.eqb s ""); [apply grows_ElemInterface|].
  destruct (bool_decide (t = reflect.url_URL)).
  { destruct (url_Parse env s); [apply grows_ret | apply grows_fail]. }
  destruct (bool_decide (t = reflect.time_Time)).
  { destruct (time_Parse env _ s); [apply grows_ret | apply grows_fail]. }
  (* line 142 panics before any decoder is consulted *)
  intros h h' o. unfold bind, lift.
  cbn [reflectOps.Implements reflect.TypeOf]. intros [= <- _]. reflexivity.
Qed.

Lemma grows_mapFromString (env : Env) (s : string) (t : rtype) :
  grows (values.mapFromString env s t).
Proof.
  unfold values.mapFromString.
  destruct (negb (String.eqb s "")).
  - destruct (json_Unmarshal env s t) as [d|].
    + apply (grows_New_SetElem t (reflect.VData t d) (fun p => ret p)).
      intros p. apply grows_ret.
    + apply grows_bind; [apply grows_New | intros p; apply grows_fail].
  - apply (grows_New_SetElem t (reflect.VData t "{}") (fun p => ret p)).
    intros p. apply grows_ret.
Qed.

Lemma grows_New_panic {A B} (t : rtype) (msg : string) (k : Val -> A -> M B) :
  grows (bind (reflectOps.New t) (fun p => bind (panic msg) (k p))).
Proof.
  apply grows_bind; [apply grows_New|]. intros p h h' o [= <- _]. reflexivity.
Qed.

Lemma grows_floatFromString (env : Env) (s : string) (t : rtype) :
  grows (values.floatFromString env s t).
Proof.
  unfold values.floatFromString.
  apply grows_bind.
  { destruct (negb (String.eqb s "")); [|apply grows_ret].
    destruct (strconv_ParseFloat env s); [apply grows_ret | apply grows_fail]. }
  intros f.
  destruct (reflect.KindOf t) eqn:EK; try apply grows_New_panic.
  - apply (grows_New_SetElem t (reflect.VFloat t (toFloat32 env f)) (fun p => ret p)).
    intros p. apply grows_ret.
  - apply (grows_New_SetElem t (reflect.VFloat t f) (fun p => ret p)).
    intros p. apply grows_ret.
Qed.

Lemma grows_intFromString (env : Env) (s : string) (t : rtype) :
  grows (values.intFromString env s t).
Proof.
  unfold values.intFromString.
  destruct (bool_decide (t = reflect.time_Duration)).
  - apply grows_bind.
    { destruct (negb (String.eqb s "")); [|apply grows_ret].
      destruct (time_ParseDuration env s); [apply grows_ret | apply grows_fail]. }
    intros d. apply grows_bind; [apply grows_alloc | intros l; apply grows_ret].
  - apply grows_bind; [|intros i; apply grows_ret].
    destruct (negb (String.eqb s "")); [|apply grows_ret].
    destruct (strconv.ParseInt10_64 s); [apply grows_ret | apply grows_fail].
Qed.

Lemma grows_boolFromString (s : string) (t : rtype) :
  grows (values.boolFromString s t).
Proof.
  unfold values.boolFromString.
  apply grows_bind; [|intros b; apply grows_ret].
  destruct (negb (String.eqb s "")); [|apply grows_ret].
  destruct (strconv.ParseBool s); [apply grows_ret | apply grows_fail].
Qed.

Lemma grows_stringFromString (s : string) (t : rtype) :
  grows (values.stringFromString s t).
Proof.
  unfold values.stringFromString.
  destruct (reflect.KindOf t) eqn:EK; try apply grows_New_panic.
  apply (grows_New_SetElem t (reflect.VString t s)
           (fun p => reflectOps.ElemInterface p)).
  intros p. apply grows_ElemInterface.
Qed.

Lemma grows_sliceLoop (coerce : string -> M Val) (elemT : rtype)
    (ss : list string) (sv : list Val) :
  (forall sa, grows (coerce sa)) ->
  grows (values.sliceLoop coerce elemT ss sv).
Proof.
  intros Hc. revert sv. induction ss as [|sa rest IH]; intros sv.
  - apply grows_ret.
  - intros h h' o. cbn [values.sliceLoop].
    destruct (coerce sa h) as [h1 [sel|err|msg]] eqn:E;
      [|intros [= <- _]; exact (Hc _ _ _ _ E)
       |intros [= <- _]; exact (Hc _ _ _ _ E)].
    intros H. etransitivity; [exact (Hc _ _ _ _ E)|].
    revert H. apply grows_bind.
    + destruct sel as [| | | | | | | |e l|t]; try apply grows_ret.
      * apply grows_load.
      * destruct t; try apply grows_ret. apply grows_panic.
    + intros ev. destruct (bool_decide _); [apply IH | apply grows_panic].
Qed.

Lemma ValueFromString_grows (env : Env) (t : rtype) (s : string) :
  grows (values.ValueFromString env s t).
Proof.
  revert s. induction t as [nm u|e IH|e IH| | | | | |]; intros s;
    cbn [values.ValueFromString]; try apply grows_fail.
  - destruct u; try apply grows_fail;
      first [apply grows_boolFromString | apply grows_intFromString
            | apply grows_floatFromString | apply grows_stringFromString].
  - apply grows_bind; [apply IH|]. intros x.
    apply (grows_New_SetElem e x (fun p => ret p)). intros p. apply grows_ret.
  - unfold values.sliceBody.
    apply grows_bind; [|intros elems; apply grows_ret].
    apply grows_sliceLoop. intros sa. apply IH.
  - apply grows_mapFromString.
  - apply grows_structureFromString.
  - apply grows_panic.
Qed.

(** X1 (values.go:42-80). Whatever the token, the type and the result,
    [ValueFromString] leaves every cell that existed before the call as it
    was: the heap it returns is the heap it was given, followed by the cells
    it allocated. *)
Theorem X1_ValueFromString_only_allocates
    (env : Env) (s : string) (t : rtype) (h h' : heap) (o : outcome Val) :
  values.ValueFromString env s t h = (h', o) ->
  h `prefix_of` h'
  /\ (forall (l : reflect.loc) (x : Val), h !! l = Some x -> h' !! l = Some x).
Proof.
  intros H. apply ValueFromString_grows in H. split; [exact H|].
  intros l x Hl. now apply (prefix_lookup_Some h h').
Qed.

Lemma X1_witness :
  [vbool true] `prefix_of`
    fst (values.ValueFromString defaultEnv "a,b" (reflect.SliceOf reflect.string_)
           [vbool true]).
Proof.
  apply (X1_ValueFromString_only_allocates defaultEnv "a,b"
           (reflect.SliceOf reflect.string_) [vbool true] _
           (snd (values.ValueFromString defaultEnv "a,b"
                   (reflect.SliceOf reflect.string_) [vbool true]))).
  reflexivity.
Defined.

(** *** Pointer, string and unsupported targets *)

(** X2 (values.go:47-54). A successful coercion to a pointer type returns
    a non-nil pointer to a cell that did not exist before the call, and that
    cell holds a value of the pointee type. *)
Theorem X2_pointer_result_is_fresh
    (env : Env) (s : string) (e : rtype) (h h' : heap) (v : Val) :
  values.ValueFromString env s (reflect.PtrTo e) h = (h', Ok v) ->
  exists (l : reflect.loc) (x : Val),
    v = reflect.VPtr e l
    /\ (length h <= l)%nat
    /\ h' !! l = Some x
    /\ reflect.TypeOf x = Some e.
Proof.
  cbn [values.ValueFromString]. unfold bind at 1.
  destruct (values.ValueFromString env s e h) as [h1 [x|err|msg]] eqn:E;
    [|discriminate|discriminate].
  rewrite (New_SetElem e x (fun p => ret p)).
  destruct (bool_decide (reflect.TypeOf x = Some e)) eqn:ET; [|discriminate].
  intros [= <- <-]. exists (length h1), x. repeat split.
  - apply prefix_length. exact (ValueFromString_grows _ _ _ _ _ _ E).
  - apply load_fresh.
  - now apply bool_decide_eq_true in ET.
Qed.

Lemma X2_witness :
  exists (l : reflect.loc) (x : Val),
    snd (values.ValueFromString defaultEnv "on" (reflect.PtrTo reflect.string_) [])
      = Ok (reflect.VPtr reflect.string_ l)
    /\ reflect.TypeOf x = Some reflect.string_.
Proof.
  destruct (X2_pointer_result_is_fresh defaultEnv "on" reflect.string_ []
              [vstring "on"; vstring "on"] (reflect.VPtr reflect.string_ 1%nat))
    as (l & x & Hv & _ & _ & Ht).
  - reflexivity.
  - exists 1%nat, x. split; [reflexivity | exact Ht].
Defined.

Lemma ValueFromString_string_kind (env : Env) (nm s : string) (h : heap) :
  values.ValueFromString env s (reflect.Basic nm reflect.SString) h
  = ((h ++ [reflect.VString (reflect.Basic nm reflect.SString) s])%list,
     Ok (reflect.VString (reflect.Basic nm reflect.SString) s)).
Proof.
  cbn [values.ValueFromString]. unfold values.stringFromString.
  cbn [reflect.KindOf reflect.scalarKind].
  rewrite (New_SetElem _ (reflect.VString (reflect.Basic nm reflect.SString) s)
             (fun p => reflectOps.ElemInterface p)).
  cbn [reflect.TypeOf]. rewrite bool_decide_eq_true_2 by reflexivity.
  cbn [reflectOps.ElemInterface]. unfold load. now rewrite load_fresh.
Qed.

(** X3 (values.go:74-75, 249-253). For every type whose kind is string,
    predeclared or defined, and every token, the coercion succeeds and
    returns the token itself as a value of exactly that type; one cell is
    allocated on the way. *)
Theorem X3_string_is_verbatim (env : Env) (nm s : string) (h : heap) :
  let t := reflect.Basic nm reflect.SString in
  values.ValueFromString env s t h
  = ((h ++ [reflect.VString t s])%list, Ok (reflect.VString t s))
  /\ reflect.TypeOf (reflect.VString t s) = Some t.
Proof.
  cbv zeta. split; [apply ValueFromString_string_kind | reflexivity].
Qed.

(** X4 (values.go:77-78). A type of an unsigned integer, complex, array,
    channel, function, uintptr or unsafe-pointer kind is refused for every
    token with the unsupported-type error, and nothing is allocated. *)
Theorem X4_unsupported_kinds_fail
    (env : Env) (s : string) (t : rtype) (h : heap) :
  reflect.KindOf t ∈ [reflect.Uint; reflect.Uint8; reflect.Uint16; reflect.Uint32;
                       reflect.Uint64; reflect.Uintptr; reflect.Complex64;
                       reflect.Complex128; reflect.Array; reflect.Chan;
                       reflect.Func; reflect.UnsafePointer] ->
  values.ValueFromString env s t h = (h, Fail (ErrUnsupportedKind t)).
Proof.
  intros Hk. apply list_elem_of_In in Hk.
  destruct t as [nm u| | | | | | | |]; try reflexivity;
    try (exfalso; cbn in Hk; intuition discriminate).
  destruct u; try reflexivity; exfalso; cbn in Hk; intuition discriminate.
Qed.

Lemma X4_witness :
  values.ValueFromString defaultEnv "7" (reflect.Basic "uint" reflect.SUint) []
  = ([], Fail (ErrUnsupportedKind (reflect.Basic "uint" reflect.SUint))).
Proof.
  apply (X4_unsupported_kinds_fail defaultEnv "7" (reflect.Basic "uint" reflect.SUint) []).
  apply list_elem_of_In. simpl. now left.
Defined.

(** *** Slices *)

Lemma append_nil_right (s : string) : s ++ "" = s.
Proof.
  induction s as [|c s IH]; [reflexivity|].
  change (String c s ++ "") with (String c (s ++ "")). now rewrite IH.
Qed.

Lemma append_assoc_string (a b c : string) : (a ++ b) ++ c = a ++ (b ++ c).
Proof.
  induction a as [|x a IH]; [reflexivity|].
  change ((String x a ++ b) ++ c) with (String x ((a ++ b) ++ c)).
  now rewrite IH.
Qed.

Lemma sliceLoop_strings (env : Env) (ss : list string) (sv : list Val) (h : heap) :
  values.sliceLoop (fun sa => values.ValueFromString env sa reflect.string_)
    reflect.string_ ss sv h
  = ((h ++ map vstring ss)%list, Ok (sv ++ map vstring ss)%list).
Proof.
  revert sv h. induction ss as [|sa rest IH]; intros sv h.
  - cbn [values.sliceLoop map]. unfold ret. now rewrite !app_nil_r.
  - cbn [values.sliceLoop map]. rewrite stringFromString_string.
    unfold bind, ret. cbn [vstring reflect.TypeOf].
    rewrite bool_decide_eq_true_2 by reflexivity.
    change (reflect.VString reflect.string_ sa) with (vstring sa).
    rewrite IH. now rewrite <- !app_assoc.
Qed.

Lemma ValueFromString_string_slice (env : Env) (s : string) (h : heap) :
  values.ValueFromString env s (reflect.SliceOf reflect.string_) h
  = ((h ++ map vstring (GoStrings.Split (strings_explode env) s (SliceDelimiter env)))%list,
     Ok (flags.ofStrings (GoStrings.Split (strings_explode env) s (SliceDelimiter env)))).
Proof.
  cbn [values.ValueFromString]. unfold values.sliceBody.
  change (fun sa => values.ValueFromString env sa (reflect.Basic "string" reflect.SString))
    with (fun sa => values.ValueFromString env sa reflect.string_).
  unfold bind at 1.
  change (reflect.Basic "string" reflect.SString) with reflect.string_.
  rewrite sliceLoop_strings. reflexivity.
Qed.

(** X5 (values.go:59-60, 167-182). Coercing any token to [[]string]
    succeeds and returns the fields that [strings.Split] cuts the token
    into at [SliceDelimiter], each as it is and in order (empty fields
    included); the result is a [[]string] for the type assertion of
    [Parameters], and one cell per field is allocated. *)
Theorem X5_string_slice_is_the_split (env : Env) (s : string) (h : heap) :
  let fields := GoStrings.Split (strings_explode env) s (SliceDelimiter env) in
  values.ValueFromString env s (reflect.SliceOf reflect.string_) h
  = ((h ++ map vstring fields)%list, Ok (flags.ofStrings fields))
  /\ flags.toStrings (flags.ofStrings fields) = Some fields
  /\ length fields = length (map vstring fields).
Proof.
  cbv zeta. split; [apply ValueFromString_string_slice|].
  split; [apply toStrings_ofStrings | now rewrite length_map].
Qed.

Lemma splitFrom_no_separator (d : ascii) (x rest cur : string) :
  GoStrings.inCutset d x = false ->
  GoStrings.splitFrom (String d "") (x ++ rest) O cur
  = GoStrings.splitFrom (String d "") rest O (cur ++ x).
Proof.
  revert cur. induction x as [|c x IH]; intros cur Hx.
  - now rewrite append_nil_right.
  - cbn [GoStrings.inCutset] in Hx.
    destruct (Ascii.eqb d c) eqn:E; [discriminate|].
    change (String c x ++ rest) with (String c (x ++ rest)).
    cbn [GoStrings.splitFrom String.prefix].
    destruct (ascii_dec d c) as [->|Hne].
    + rewrite Ascii.eqb_refl in E. discriminate.
    + rewrite IH by exact Hx. now rewrite append_assoc_string.
Qed.

Lemma splitFrom_separator (d : ascii) (r cur : string) :
  GoStrings.splitFrom (String d "") (String d r) O cur
  = cur :: GoStrings.splitFrom (String d "") r O "".
Proof.
  cbn [GoStrings.splitFrom String.prefix].
  destruct (ascii_dec d d) as [_|Hne]; [|contradiction].
  now destruct r.
Qed.

Lemma splitFrom_Join (d : ascii) (x : string) (r : list string) (cur : string) :
  Forall (fun y => GoStrings.inCutset d y = false) (x :: r) ->
  GoStrings.splitFrom (String d "") (GoStrings.Join (x :: r) (String d "")) O cur
  = (cur ++ x) :: r.
Proof.
  revert x cur. induction r as [|y r IH]; intros x cur Hall.
  - cbn [GoStrings.Join]. apply Forall_cons in Hall as [Hx _].
    rewrite <- (append_nil_right x) at 1.
    now rewrite splitFrom_no_separator.
  - apply Forall_cons in Hall as [Hx Hr].
    change (GoStrings.Join (x :: y :: r) (String d ""))
      with (x ++ String d (GoStrings.Join (y :: r) (String d ""))).
    rewrite splitFrom_no_separator by exact Hx.
    rewrite splitFrom_separator. now rewrite IH.
Qed.

(** X6 (values.go:167-182). Round trip through the delimiter: for a
    one-byte [SliceDelimiter] and a non-empty list of strings none of which
    contains that byte, coercing their [strings.Join] to [[]string] gives
    the list back. *)
Theorem X6_string_slice_of_Join
    (env : Env) (d : ascii) (ss : list string) (h : heap) :
  SliceDelimiter env = String d "" ->
  ss <> [] ->
  Forall (fun y => GoStrings.inCutset d y = false) ss ->
  values.ValueFromString env (GoStrings.Join ss (SliceDelimiter env))
    (reflect.SliceOf reflect.string_) h
  = ((h ++ map vstring ss)%list, Ok (flags.ofStrings ss)).
Proof.
  intros Hd Hne Hall.
  rewrite ValueFromString_string_slice.
  assert (Hs : GoStrings.Split (strings_explode env)
                 (GoStrings.Join ss (SliceDelimiter env))
                 (SliceDelimiter env) = ss).
  { rewrite Hd. destruct ss as [|x r]; [contradiction|].
    unfold GoStrings.Split. now rewrite splitFrom_Join. }
  now rewrite Hs.
Qed.

Lemma X6_witness :
  values.ValueFromString defaultEnv (GoStrings.Join ["a"; ""; "b c"] ",")
    (reflect.SliceOf reflect.string_) []
  = ([vstring "a"; vstring ""; vstring "b c"], Ok (flags.ofStrings ["a"; ""; "b c"])).
Proof.
  apply (X6_string_slice_of_Join defaultEnv "," ["a"; ""; "b c"] []).
  - reflexivity.
  - discriminate.
  - repeat constructor.
Defined.

Lemma ValueFromString_int (env : Env) (f : string) (h : heap) :
  values.ValueFromString env f reflect.int_ h
  = (h, match intField f with
        | Some z => Ok (vint z)
        | None => Fail (ErrCouldNotBeRead f reflect.int_)
        end).
Proof.
  cbn [values.ValueFromString reflect.int_]. unfold values.intFromString, intField.
  rewrite bool_decide_eq_false_2 by discriminate.
  unfold bind, ret, fail.
  destruct (String.eqb f ""); [reflexivity|]. cbn [negb].
  now destruct (strconv.ParseInt10_64 f).
Qed.

Lemma sliceLoop_ints (env : Env) (ss : list string) (zs : list Z)
    (sv : list Val) (h : heap) :
  Forall2 (fun f z => intField f = Some z) ss zs ->
  values.sliceLoop (fun sa => values.ValueFromString env sa reflect.int_)
    reflect.int_ ss sv h
  = (h, Ok (sv ++ map vint zs)%list).
Proof.
  intros Hall. revert sv. induction Hall as [|f z ss zs Hf _ IH]; intros sv.
  - cbn [values.sliceLoop map]. unfold ret. now rewrite app_nil_r.
  - cbn [values.sliceLoop map]. rewrite ValueFromString_int, Hf.
    unfold bind, ret. cbn [vint reflect.TypeOf].
    rewrite bool_decide_eq_true_2 by reflexivity.
    change (reflect.VInt reflect.int_ z) with (vint z).
    rewrite IH. now rewrite <- app_assoc.
Qed.

Lemma sliceLoop_ints_bad (env : Env) (pre : list string) (zs : list Z)
    (bad : string) (post : list string) (sv : list Val) (h : heap) :
  Forall2 (fun f z => intField f = Some z) pre zs ->
  intField bad = None ->
  values.sliceLoop (fun sa => values.ValueFromString env sa reflect.int_)
    reflect.int_ (pre ++ bad :: post) sv h
  = (h, Fail (ErrCouldNotBeRead bad reflect.int_)).
Proof.
  intros Hall Hbad. revert sv. induction Hall as [|f z ss zs Hf _ IH]; intros sv.
  - cbn [values.sliceLoop app]. now rewrite ValueFromString_int, Hbad.
  - cbn [values.sliceLoop app]. rewrite ValueFromString_int, Hf.
    unfold bind, ret. cbn [vint reflect.TypeOf].
    rewrite bool_decide_eq_true_2 by reflexivity. apply IH.
Qed.

(** X7 (values.go:167-182, 212-235). Coercion to [[]int]: when every
    field of the token is empty or a decimal [int64] literal, the result is
    the slice of their values in order, an empty field counting as 0; when
    some field is neither, the coercion fails with the could-not-be-read
    error naming the first such field. Nothing is allocated either way. *)
Theorem X7_int_slice
    (env : Env) (s : string) (h : heap) :
  (forall zs,
     Forall2 (fun f z => intField f = Some z)
       (GoStrings.Split (strings_explode env) s (SliceDelimiter env)) zs ->
     values.ValueFromString env s (reflect.SliceOf reflect.int_) h
     = (h, Ok (reflect.VSlice (reflect.SliceOf reflect.int_) (map vint zs))))
  /\ (forall pre zs bad post,
        GoStrings.Split (strings_explode env) s (SliceDelimiter env) = (pre ++ bad :: post)%list ->
        Forall2 (fun f z => intField f = Some z) pre zs ->
        intField bad = None ->
        values.ValueFromString env s (reflect.SliceOf reflect.int_) h
        = (h, Fail (ErrCouldNotBeRead bad reflect.int_))).
Proof.
  split.
  - intros zs Hall. cbn [values.ValueFromString]. unfold values.sliceBody.
    change (fun sa => values.ValueFromString env sa (reflect.Basic "int" reflect.SInt))
      with (fun sa => values.ValueFromString env sa reflect.int_).
    unfold bind at 1. change (reflect.Basic "int" reflect.SInt) with reflect.int_.
    now rewrite (sliceLoop_ints env _ zs).
  - intros pre zs bad post Hf Hall Hbad.
    cbn [values.ValueFromString]. unfold values.sliceBody.
    change (fun sa => values.ValueFromString env sa (reflect.Basic "int" reflect.SInt))
      with (fun sa => values.ValueFromString env sa reflect.int_).
    unfold bind at 1. change (reflect.Basic "int" reflect.SInt) with reflect.int_.
    rewrite Hf. now rewrite (sliceLoop_ints_bad env pre zs).
Qed.

Lemma X7_witness :
  values.ValueFromString defaultEnv "1,,-3" (reflect.SliceOf reflect.int_) []
  = ([], Ok (reflect.VSlice (reflect.SliceOf reflect.int_) [vint 1; vint 0; vint (-3)]))
  /\ values.ValueFromString defaultEnv "1,x,3" (reflect.SliceOf reflect.int_) []
     = ([], Fail (ErrCouldNotBeRead "x" reflect.int_)).
Proof.
  split.
  - apply (proj1 (X7_int_slice defaultEnv "1,,-3" []) [1; 0; -3]).
    repeat constructor.
  - apply (proj2 (X7_int_slice defaultEnv "1,x,3" []) ["1"] [1] "x" ["3"]).
    + reflexivity.
    + repeat constructor.
    + reflexivity.
Defined.

(** *** [SetValue], [GetValue], [IsKind] *)

Lemma GetValue_at (t : rtype) (l : reflect.loc) (x : Val) (h : heap) :
  h !! l = Some x ->
  (forall e l', x <> reflect.VPtr e l') ->
  (forall u, x <> reflect.VNilOf (reflect.PtrTo u)) ->
  x <> reflect.VNil ->
  values.GetValue (reflect.VPtr t l) h = Some (Ok x).
Proof.
  intros Hl Hp Hn Hnil. unfold values.GetValue.
  cbn [values.GetValueFrom]. rewrite Hl.
  destruct h as [|c h]; [discriminate|]. cbn [length values.GetValueFrom].
  destruct x as [| | | | | | | |e l'|u]; try reflexivity.
  - contradiction.
  - now contradiction (Hp e l').
  - destruct u; try reflexivity. now contradiction (Hn u).
Qed.

Lemma IsKind_at (t : rtype) (l : reflect.loc) (x : Val) (k : reflect.Kind) (h : heap) :
  h !! l = Some x ->
  (forall e l', x <> reflect.VPtr e l') ->
  (forall u, x <> reflect.VNilOf (reflect.PtrTo u)) ->
  values.IsKind (reflect.VPtr t l) k h
  = Some (Ok (bool_decide
                (from_option reflect.KindOf reflect.Invalid (reflect.TypeOf x) = k))).
Proof.
  intros Hl Hp Hn. unfold values.IsKind.
  cbn [values.IsKindFrom]. rewrite Hl.
  destruct h as [|c h]; [discriminate|]. cbn [length values.IsKindFrom].
  destruct x as [| | | | | | | |e l'|u]; try reflexivity.
  - now contradiction (Hp e l').
  - destruct u; try reflexivity. now contradiction (Hn u).
Qed.

(** X8 (values.go:90-117, 82-88). Set and get through a pointer to a
    string variable: [SetValue(&x, s)] returns no error for every token,
    leaves [s] in the variable and every other existing cell as it was;
    afterwards [GetValue(&x)] is [s] and [IsKind(&x, reflect.String)] is
    true. *)
Theorem X8_SetValue_string_then_GetValue
    (env : Env) (nm : string) (l : reflect.loc) (s : string) (h : heap) :
  (l < length h)%nat ->
  exists h',
    values.SetValue env (reflect.VPtr (reflect.Basic nm reflect.SString) l) s h
    = (h', Ok tt)
    /\ h' !! l = Some (reflect.VString (reflect.Basic nm reflect.SString) s)
    /\ (forall l', l' <> l -> (l' < length h)%nat -> h' !! l' = h !! l')
    /\ values.GetValue (reflect.VPtr (reflect.Basic nm reflect.SString) l) h'
       = Some (Ok (reflect.VString (reflect.Basic nm reflect.SString) s))
    /\ values.IsKind (reflect.VPtr (reflect.Basic nm reflect.SString) l)
         reflect.String h'
       = Some (Ok true).
Proof.
  intros Hl.
  set (t := reflect.Basic nm reflect.SString).
  set (x := reflect.VString t s).
  exists (<[ l := x ]> ((h ++ [x]) ++ [x])%list).
  assert (Hlen : (l < length ((h ++ [x]) ++ [x])%list)%nat).
  { rewrite !length_app. lia. }
  assert (Hat : <[ l := x ]> ((h ++ [x]) ++ [x])%list !! l = Some x)
    by now apply list_lookup_insert_eq.
  repeat split.
  - unfold values.SetValue. cbn [reflect.TypeOf].
    cbn [values.ValueFromString]. unfold bind at 1. unfold bind at 1.
    pose proof (ValueFromString_string_kind env nm s h) as E.
    fold t in E. fold x in E. fold t. rewrite E.
    rewrite (New_SetElem t x (fun p => ret p)).
    rewrite bool_decide_eq_true_2 by reflexivity.
    unfold ret, bind. cbn [reflectOps.ElemInterface]. unfold load.
    rewrite load_fresh. cbn [reflectOps.SetElem].
    rewrite bool_decide_eq_true_2 by reflexivity. reflexivity.
  - exact Hat.
  - intros l' Hne Hl'. etransitivity; [apply list_lookup_insert_ne; congruence|].
    rewrite <- app_assoc. now apply lookup_app_l.
  - apply GetValue_at; [exact Hat | discriminate..].
  - now rewrite (IsKind_at t l x reflect.String _ Hat) by discriminate.
Qed.

Lemma X8_witness :
  exists h',
    values.SetValue defaultEnv (reflect.VPtr reflect.string_ 0%nat) "new" [vstring "old"]
    = (h', Ok tt)
    /\ values.GetValue (reflect.VPtr reflect.string_ 0%nat) h' = Some (Ok (vstring "new")).
Proof.
  destruct (X8_SetValue_string_then_GetValue defaultEnv "string" 0%nat "new"
              [vstring "old"]) as (h' & H1 & _ & _ & H2 & _).
  - simpl. lia.
  - exists h'. split; [exact H1 | exact H2].
Defined.

(** X9 (values.go:100-117, 212-235). [SetValue(&n, s)] on an [int]
    variable: when [s] is empty or a decimal [int64] literal the variable
    receives its value (0 for the empty string) and no error is returned;
    otherwise the could-not-be-read error is returned and the heap, the
    variable included, is exactly as before. *)
Theorem X9_SetValue_int
    (env : Env) (l : reflect.loc) (s : string) (h : heap) :
  (l < length h)%nat ->
  (forall z, intField s = Some z ->
     values.SetValue env (reflect.VPtr reflect.int_ l) s h
     = (<[ l := vint z ]> (h ++ [vint z])%list, Ok tt)
     /\ <[ l := vint z ]> (h ++ [vint z])%list !! l = Some (vint z))
  /\ (intField s = None ->
      values.SetValue env (reflect.VPtr reflect.int_ l) s h
      = (h, Fail (ErrCouldNotBeRead s reflect.int_))).
Proof.
  intros Hl. split.
  - intros z Hz. split.
    + unfold values.SetValue. cbn [reflect.TypeOf].
      cbn [values.ValueFromString]. unfold bind at 1. unfold bind at 1.
      change (values.intFromString env s (reflect.Basic "int" reflect.SInt) h)
        with (values.ValueFromString env s reflect.int_ h).
      rewrite ValueFromString_int, Hz.
      rewrite (New_SetElem _ (vint z) (fun p => ret p)).
      cbn [vint reflect.TypeOf]. rewrite bool_decide_eq_true_2 by reflexivity.
      unfold ret, bind. cbn [reflectOps.ElemInterface]. unfold load.
      rewrite load_fresh. cbn [reflectOps.SetElem reflect.TypeOf].
      rewrite bool_decide_eq_true_2 by reflexivity. reflexivity.
    + apply list_lookup_insert_eq. rewrite length_app. lia.
  - intros Hz. unfold values.SetValue. cbn [reflect.TypeOf].
    cbn [values.ValueFromString]. unfold bind at 1. unfold bind at 1.
    change (values.intFromString env s (reflect.Basic "int" reflect.SInt) h)
      with (values.ValueFromString env s reflect.int_ h).
    now rewrite ValueFromString_int, Hz.
Qed.

Lemma X9_witness :
  values.SetValue defaultEnv (reflect.VPtr reflect.int_ 0%nat) "42" [vint 7]
  = ([vint 42; vint 42], Ok tt)
  /\ values.SetValue defaultEnv (reflect.VPtr reflect.int_ 0%nat) "4x" [vint 7]
     = ([vint 7], Fail (ErrCouldNotBeRead "4x" reflect.int_)).
Proof.
  split.
  - apply (proj1 (X9_SetValue_int defaultEnv 0%nat "42" [vint 7] ltac:(simpl; lia)) 42).
    reflexivity.
  - apply (proj2 (X9_SetValue_int defaultEnv 0%nat "4x" [vint 7] ltac:(simpl; lia))).
    reflexivity.
Defined.

(** X10 (values.go:100-117). [SetValue] never returns without error for a
    receiver that is not a non-nil pointer: whatever the string, it returns
    the coercion's error or panics, the receiver's value not being
    addressable. *)
Theorem X10_SetValue_needs_a_pointer
    (env : Env) (r : Val) (val : string) (h h' : heap) (o : outcome unit) :
  (forall e l, r <> reflect.VPtr e l) ->
  values.SetValue env r val h = (h', o) ->
  o <> Ok tt.
Proof.
  intros Hr. unfold values.SetValue.
  destruct (reflect.TypeOf r) as [t|]; [|intros [= _ <-]; discriminate].
  unfold bind at 1.
  destruct (values.ValueFromString env val t h) as [h1 [iVal|err|msg]];
    [|intros [= _ <-]; discriminate..].
  unfold bind.
  destruct (match iVal with
            | reflect.VPtr _ _ => reflectOps.ElemInterface iVal
            | reflect.VNil | reflect.VNilOf (reflect.PtrTo _) =>
                panic "reflect: call of reflect.Value.Set on zero Value"
            | _ => ret iVal
            end h1) as [h2 [v|err|msg]];
    [|intros [= _ <-]; discriminate..].
  destruct r as [| | | | | | | |e l|u]; try (intros [= _ <-]; discriminate).
  now contradiction (Hr e l).
Qed.

Lemma X10_witness :
  snd (values.SetValue defaultEnv (vstring "old") "new" []) <> Ok tt.
Proof.
  apply (X10_SetValue_needs_a_pointer defaultEnv (vstring "old") "new" []
           (fst (values.SetValue defaultEnv (vstring "old") "new" []))).
  - discriminate.
  - reflexivity.
Defined.

(** ** Further properties of [flags] *)

(** *** [AddFlag] *)

Lemma addNames_fresh (v : Val) (names : list string) (m : gmap string Val) :
  NoDup names ->
  (forall k, k ∈ names -> m !! k = None) ->
  flags.addNames v names m
  = (foldl (fun m k => <[ k := v ]> m) m names, Ok tt).
Proof.
  revert m. induction names as [|a r IH]; intros m Hnd Hfree; [reflexivity|].
  apply NoDup_cons in Hnd as [Ha Hnd].
  cbn [flags.addNames foldl].
  rewrite (Hfree a) by (apply elem_of_cons; now left).
  apply IH; [exact Hnd|].
  intros k Hk. rewrite lookup_insert_ne.
  - apply Hfree. apply elem_of_cons. now right.
  - intros ->. contradiction.
Qed.

(** X11 (flags.go:113-136). Registering a non-nil pointer under one or
    more names that are pairwise distinct and not yet in the registry
    returns no error; afterwards every given name is bound to that pointer,
    every other name is bound as before, and the mode is unchanged. *)
Theorem X11_AddFlag_registers_every_name
    (fs : flags.Flags) (e : rtype) (l : reflect.loc) (names : list string) :
  names <> [] ->
  NoDup names ->
  (forall k, k ∈ names -> flags.flags fs !! k = None) ->
  exists fs',
    flags.AddFlag fs (reflect.VPtr e l) names = (fs', Ok tt)
    /\ flags.IgnoreUnknown fs' = flags.IgnoreUnknown fs
    /\ (forall k, flags.flags fs' !! k
                  = if decide (k ∈ names) then Some (reflect.VPtr e l)
                    else flags.flags fs !! k).
Proof.
  intros Hne Hnd Hfree.
  exists {| flags.IgnoreUnknown := flags.IgnoreUnknown fs;
            flags.flags := foldl (fun m k => <[ k := reflect.VPtr e l ]> m)
                             (flags.flags fs) names |}.
  repeat split.
  - unfold flags.AddFlag. destruct names as [|a r]; [contradiction|].
    cbn [flags.IsNil reflect.TypeOf reflect.KindOf option_map].
    rewrite bool_decide_eq_true_2 by reflexivity. cbn [negb].
    now rewrite addNames_fresh.
  - intros k. cbn [flags.flags]. apply lookup_foldl_insert.
Qed.

Lemma X11_witness :
  exists fs',
    flags.AddFlag regBool (reflect.VPtr reflect.int_ 1%nat) ["count"; "c"] = (fs', Ok tt)
    /\ flags.flags fs' !! "c" = Some (reflect.VPtr reflect.int_ 1%nat)
    /\ flags.flags fs' !! "v" = flags.flags regBool !! "v".
Proof.
  destruct (X11_AddFlag_registers_every_name regBool reflect.int_ 1%nat ["count"; "c"])
    as (fs' & H1 & _ & H2).
  - discriminate.
  - apply NoDup_cons. split.
    + intros H. apply list_elem_of_singleton in H. discriminate.
    + apply NoDup_singleton.
  - intros k Hk. apply elem_of_cons in Hk as [->|Hk]; [reflexivity|].
    apply list_elem_of_singleton in Hk as ->. reflexivity.
  - exists fs'. split; [exact H1|]. split.
    + rewrite H2. apply decide_True. apply elem_of_cons. right.
      now apply list_elem_of_singleton.
    + rewrite H2. apply decide_False. intros H.
      apply elem_of_cons in H as [H|H]; [discriminate|].
      apply list_elem_of_singleton in H. discriminate.
Defined.

(** X12 (flags.go:113-128). [AddFlag] registers nothing and does not
    return without error when no name is given, when the value is nil (the
    nil interface or a typed nil), or when the value's kind is not pointer;
    and for a value of a kind that cannot be nil (a bool, a number, a
    string, a struct passed by value) the call panics in [IsNil] instead of
    returning the not-a-pointer error. *)
Theorem X12_AddFlag_rejections
    (fs : flags.Flags) (v : Val) (names : list string) :
  (names = [] \/ v = reflect.VNil \/ (exists t, v = reflect.VNilOf t)
   \/ option_map reflect.KindOf (reflect.TypeOf v) <> Some reflect.Ptr ->
   fst (flags.AddFlag fs v names) = fs
   /\ snd (flags.AddFlag fs v names) <> Ok tt)
  /\ (forall t, names <> [] -> reflect.TypeOf v = Some t ->
        ~ reflect.KindOf t ∈ nillable ->
        flags.AddFlag fs v names
        = (fs, Panic "reflect: call of reflect.Value.IsNil on a non-nillable Value")).
Proof.
  split.
  - intros H. unfold flags.AddFlag.
    destruct names as [|a r]; [split; [reflexivity|discriminate]|].
    destruct H as [H|[->|[[t ->]|H]]]; [discriminate| | |].
    + split; [reflexivity|discriminate].
    + unfold flags.IsNil. cbn [reflect.TypeOf].
      destruct (reflect.KindOf t); split; first [reflexivity|discriminate].
    + destruct v as [| | | | | | | | |]; try (split; [reflexivity|discriminate]);
        (destruct (flags.IsNil _) as [[|]|?|?];
         [split; [reflexivity|discriminate]
         |rewrite bool_decide_eq_false_2 by exact H;
          split; [reflexivity|discriminate]
         |split; [reflexivity|discriminate]..]).
  - intros t Hne Ht Hk. unfold flags.AddFlag.
    destruct names as [|a r]; [contradiction|].
    assert (Hnil : flags.IsNil v
                   = Panic "reflect: call of reflect.Value.IsNil on a non-nillable Value").
    { unfold flags.IsNil. rewrite Ht.
      destruct (reflect.KindOf t); try reflexivity;
        exfalso; apply Hk; apply list_elem_of_In; simpl; tauto. }
    destruct v; try (now rewrite Hnil). discriminate.
Qed.

Lemma X12_witness :
  flags.AddFlag regBool (vbool true) ["b"]
  = (regBool, Panic "reflect: call of reflect.Value.IsNil on a non-nillable Value")
  /\ fst (flags.AddFlag regBool (flags.ofStrings ["x"]) ["s"]) = regBool.
Proof.
  split.
  - apply (proj2 (X12_AddFlag_rejections regBool (vbool true) ["b"]) reflect.bool_).
    + discriminate.
    + reflexivity.
    + intros H. apply list_elem_of_In in H. simpl in H. intuition discriminate.
  - apply (proj1 (X12_AddFlag_rejections regBool (flags.ofStrings ["x"]) ["s"])).
    right. right. right. discriminate.
Defined.

(** *** [Apply] *)

Lemma keeps_refl (fs : flags.Flags) : keeps fs fs.
Proof.
  repeat split. intros ps Hps. exists []. now rewrite app_nil_r.
Qed.

Lemma keeps_trans (fs1 fs2 fs3 : flags.Flags) :
  keeps fs1 fs2 -> keeps fs2 fs3 -> keeps fs1 fs3.
Proof.
  intros (Hm1 & Hk1 & Hp1) (Hm2 & Hk2 & Hp2). repeat split.
  - congruence.
  - intros k Hk. now rewrite Hk2, Hk1.
  - intros ps Hps. destruct (Hp1 ps Hps) as [m1 H1].
    destruct (Hp2 _ H1) as [m2 H2]. exists (m1 ++ m2)%list.
    now rewrite app_assoc.
Qed.

Lemma appendParameter_Ok (fs fs' : flags.Flags) (tok : string) :
  flags.appendParameter fs tok = Ok fs' ->
  exists ps,
    flags.Parameters fs = Ok ps
    /\ fs' = {| flags.IgnoreUnknown := flags.IgnoreUnknown fs;
                flags.flags := <[ "" := flags.ofStrings (ps ++ [tok])%list ]>
                                 (flags.flags fs) |}
    /\ flags.Parameters fs' = Ok (ps ++ [tok])%list.
Proof.
  unfold flags.appendParameter.
  destruct (flags.Parameters fs) as [ps|e|msg] eqn:E; [|discriminate..].
  intros [= <-]. exists ps. repeat split.
  unfold flags.Parameters. cbn [flags.flags].
  rewrite lookup_insert_eq. now rewrite toStrings_ofStrings.
Qed.

Lemma appendParameter_keeps (fs fs' : flags.Flags) (tok : string) :
  flags.appendParameter fs tok = Ok fs' -> keeps fs fs'.
Proof.
  intros H. destruct (appendParameter_Ok _ _ _ H) as (ps & Hps & -> & Hps').
  repeat split.
  - intros k Hk. cbn [flags.flags]. now rewrite lookup_insert_ne by congruence.
  - intros ps0 Hps0. rewrite Hps in Hps0. injection Hps0 as <-.
    now exists [tok].
Qed.

(** the registry an iteration hands on, whether the loop goes on or ends *)
Lemma iteration_keeps (env : Env) (a : string) (rest : list string)
    (fs : flags.Flags) (h : heap) :
  match flags.iteration env a rest fs h with
  | flags.Continue _ fs' _ => keeps fs fs'
  | flags.Return fs' _ _ => keeps fs fs'
  end.
Proof.
  unfold flags.iteration.
  destruct (negb (GoStrings.HasPrefix a "-") || String.eqb a "-").
  { destruct (flags.appendParameter fs a) eqn:E;
      [now apply appendParameter_keeps in E | apply keeps_refl..]. }
  destruct (flags.flags fs !! GoStrings.TrimLeft a "-") as [v|].
  2:{ destruct (flags.IgnoreUnknown fs); [|apply keeps_refl].
      destruct (flags.appendParameter fs _) eqn:E;
        [now apply appendParameter_keeps in E | apply keeps_refl..]. }
  destruct (flags.lookahead rest) as [[argVal advanced] rest'].
  destruct (reflect.TypeOf v) as [to|]; [|apply keeps_refl].
  destruct (values.ValueFromString env argVal to h) as [h1 [iVal|err|msg]].
  - destruct (flags.SetValue v iVal h1) as [h2 [?|?|?]]; apply keeps_refl.
  - destruct (bool_decide _); [|apply keeps_refl].
    destruct (flags.SetValue v _ h1) as [h2 [?|?|?]]; apply keeps_refl.
  - apply keeps_refl.
Qed.

Lemma loop_keeps (env : Env) (fuel : nat) (args : list string)
    (fs fs' : flags.Flags) (h h' : heap) (o : outcome unit) :
  flags.loop env fuel args fs h = Some (fs', h', o) -> keeps fs fs'.
Proof.
  revert args fs h. induction fuel as [|fuel IH]; intros args fs h.
  - destruct args; [|discriminate]. intros [= <- _ _]. apply keeps_refl.
  - destruct args as [|a rest]; [intros [= <- _ _]; apply keeps_refl|].
    cbn [flags.loop].
    pose proof (iteration_keeps env a rest fs h) as Hit.
    destruct (flags.iteration env a rest fs h) as [rest1 fs1 h1|fs1 h1 r].
    + intros H. apply IH in H. now apply keeps_trans with fs1.
    + now intros [= <- _ _].
Qed.

(** X13 (flags.go:66-105). Whatever the arguments and however the call
    ends, [Apply] adds, removes or rebinds no flag name and does not change
    the mode: only the entry under the empty key can differ afterwards. *)
Theorem X13_Apply_keeps_the_bindings
    (env : Env) (fs fs' : flags.Flags) (args : list string)
    (h h' : heap) (o : outcome unit) :
  flags.Apply env fs args h = Some (fs', h', o) ->
  flags.IgnoreUnknown fs' = flags.IgnoreUnknown fs
  /\ (forall k, k <> "" -> flags.flags fs' !! k = flags.flags fs !! k).
Proof.
  intros H. apply loop_keeps in H. destruct H as (Hm & Hk & _). now split.
Qed.

Lemma X13_witness :
  exists fs' h' o,
    flags.Apply defaultEnv regBool ["a"; "-x"; "-v"; "b"] [vbool false]
    = Some (fs', h', o)
    /\ flags.flags fs' !! "v" = flags.flags regBool !! "v".
Proof.
  destruct (flags.Apply defaultEnv regBool ["a"; "-x"; "-v"; "b"] [vbool false])
    as [[[fs' h'] o]|] eqn:E; [|vm_compute in E; discriminate].
  exists fs', h', o. split; [reflexivity|].
  apply (X13_Apply_keeps_the_bindings defaultEnv regBool fs' _ _ h' o E).
  discriminate.
Defined.

(** X14 (flags.go:41-47, 66-105). The parameters only grow: when the
    parameters are readable before the call, they are readable after it,
    however it ends, and are the former parameters, in their order,
    followed by what the call appended. *)
Theorem X14_Apply_appends_to_the_parameters
    (env : Env) (fs fs' : flags.Flags) (args ps : list string)
    (h h' : heap) (o : outcome unit) :
  flags.Apply env fs args h = Some (fs', h', o) ->
  flags.Parameters fs = Ok ps ->
  exists more, flags.Parameters fs' = Ok (ps ++ more)%list.
Proof.
  intros H Hps. apply loop_keeps in H. destruct H as (_ & _ & Hp). now apply Hp.
Qed.

Lemma X14_witness :
  exists fs' h' o more,
    flags.Apply defaultEnv regBool ["a"; "-x"; "-v"; "b"] [vbool false]
    = Some (fs', h', o)
    /\ flags.Parameters fs' = Ok ([] ++ more)%list.
Proof.
  destruct (flags.Apply defaultEnv regBool ["a"; "-x"; "-v"; "b"] [vbool false])
    as [[[fs' h'] o]|] eqn:E; [|vm_compute in E; discriminate].
  destruct (X14_Apply_appends_to_the_parameters defaultEnv regBool fs' _ [] _ h' o E)
    as [more Hmore].
  - reflexivity.
  - exists fs', h', o, more. split; [reflexivity | exact Hmore].
Defined.

Lemma appendParameter_ready (fs : flags.Flags) (ps : list string) (tok : string) :
  flags.Parameters fs = Ok ps ->
  exists fs',
    flags.appendParameter fs tok = Ok fs'
    /\ flags.Parameters fs' = Ok (ps ++ [tok])%list
    /\ flags.IgnoreUnknown fs' = flags.IgnoreUnknown fs
    /\ (forall k, k <> "" -> flags.flags fs' !! k = flags.flags fs !! k).
Proof.
  intros Hps. unfold flags.appendParameter. rewrite Hps.
  eexists. split; [reflexivity|]. repeat split.
  - unfold flags.Parameters. cbn [flags.flags].
    rewrite lookup_insert_eq. now rewrite toStrings_ofStrings.
  - intros k Hk. cbn [flags.flags]. now rewrite lookup_insert_ne by congruence.
Qed.

(** what an iteration does with a token in a permissive registry that has
    no binding for it *)
Lemma iteration_to_parameter (env : Env) (a : string) (rest ps : list string)
    (fs : flags.Flags) (h : heap) :
  flags.IgnoreUnknown fs = true ->
  flags.Parameters fs = Ok ps ->
  (isMarker a = true -> flags.flags fs !! GoStrings.TrimLeft a "-" = None) ->
  exists fs',
    flags.iteration env a rest fs h = flags.Continue rest fs' h
    /\ flags.Parameters fs' = Ok (ps ++ [asParameter a])%list
    /\ flags.IgnoreUnknown fs' = true
    /\ (forall k, k <> "" -> flags.flags fs' !! k = flags.flags fs !! k).
Proof.
  intros Hperm Hps Hunknown.
  unfold flags.iteration, asParameter. unfold isMarker in *.
  destruct (negb (GoStrings.HasPrefix a "-") || String.eqb a "-"); cbn [negb] in *.
  - destruct (appendParameter_ready fs ps a Hps) as (fs' & -> & Hp & Hm & Hk).
    exists fs'. repeat split; try assumption. congruence.
  - rewrite (Hunknown eq_refl), Hperm.
    change (GoStrings.Join ["-"; GoStrings.TrimLeft a "-"] "")
      with ("-" ++ GoStrings.TrimLeft a "-").
    destruct (appendParameter_ready fs ps ("-" ++ GoStrings.TrimLeft a "-") Hps)
      as (fs' & -> & Hp & Hm & Hk).
    exists fs'. repeat split; try assumption. congruence.
Qed.

Lemma Apply_to_parameters
    (env : Env) (fs : flags.Flags) (args ps : list string) (h : heap) :
  flags.IgnoreUnknown fs = true ->
  (forall k, k <> "" -> flags.flags fs !! k = None) ->
  flags.Parameters fs = Ok ps ->
  Forall (fun a => isMarker a = true -> GoStrings.TrimLeft a "-" <> "") args ->
  exists fs',
    flags.Apply env fs args h = Some (fs', h, Ok tt)
    /\ flags.Parameters fs' = Ok (ps ++ map asParameter args)%list
    /\ flags.IgnoreUnknown fs' = true
    /\ (forall k, k <> "" -> flags.flags fs' !! k = None).
Proof.
  intros Hperm Hnone Hps Hall. revert fs ps Hperm Hnone Hps.
  induction Hall as [|a rest Ha _ IH]; intros fs ps Hperm Hnone Hps.
  - exists fs. cbn [map]. rewrite app_nil_r. now repeat split.
  - destruct (iteration_to_parameter env a rest ps fs h Hperm Hps)
      as (fs1 & Hit & Hp1 & Hm1 & Hk1).
    { intros Hm. apply Hnone. now apply Ha. }
    destruct (IH fs1 (ps ++ [asParameter a])%list Hm1)
      as (fs' & Happ & Hp' & Hm' & Hk').
    { intros k Hk. rewrite Hk1 by exact Hk. now apply Hnone. }
    { exact Hp1. }
    exists fs'. rewrite Apply_cons, Hit. repeat split; try assumption.
    rewrite Hp'. cbn [map]. now rewrite <- app_assoc.
Qed.

(** X15 (flags.go:66-83). In a permissive registry without flag names,
    [Apply] returns no error, touches no variable, and appends every
    argument to the parameters in order: a token that is not a marker as it
    is, a marker as one dash followed by its name. (Markers consisting of
    dashes only are left out: their name is the empty key, under which the
    parameters themselves are stored.) *)
Theorem X15_Apply_without_flags
    (env : Env) (fs : flags.Flags) (args ps : list string) (h : heap) :
  flags.IgnoreUnknown fs = true ->
  (forall k, k <> "" -> flags.flags fs !! k = None) ->
  flags.Parameters fs = Ok ps ->
  Forall (fun a => isMarker a = true -> GoStrings.TrimLeft a "-" <> "") args ->
  exists fs',
    flags.Apply env fs args h = Some (fs', h, Ok tt)
    /\ flags.Parameters fs' = Ok (ps ++ map asParameter args)%list
    /\ (forall k, k <> "" -> flags.flags fs' !! k = None).
Proof.
  intros Hperm Hnone Hps Hall.
  destruct (Apply_to_parameters env fs args ps h Hperm Hnone Hps Hall)
    as (fs' & HA & HP & _ & HK).
  exists fs'. repeat split; assumption.
Qed.

Lemma X15_witness :
  exists fs',
    flags.Apply defaultEnv (flags.NewFlags true) ["greet"; "--loud"; "World"; "-"] []
    = Some (fs', [], Ok tt)
    /\ flags.Parameters fs' = Ok ["greet"; "-loud"; "World"; "-"].
Proof.
  destruct (X15_Apply_without_flags defaultEnv (flags.NewFlags true)
              ["greet"; "--loud"; "World"; "-"] [] [])
    as (fs' & H1 & H2 & _).
  - reflexivity.
  - intros k _. apply lookup_empty.
  - reflexivity.
  - repeat constructor; discriminate.
  - exists fs'. split; [exact H1 | exact H2].
Defined.

(** X16 (flags.go:66-83). In strict mode and with readable parameters,
    when the arguments are tokens that are not markers followed by a marker
    whose name is not empty and not registered (and then any tokens),
    [Apply] appends the tokens before the marker to the parameters, then
    stops at the marker and returns the unknown-flag error for its name;
    the tokens appended stay appended, the tokens after the marker are not
    looked at, no variable is written and no binding is changed. *)
Theorem X16_Apply_strict_stops_at_unknown_flag
    (env : Env) (fs : flags.Flags) (pos : list string) (a : string)
    (rest ps : list string) (h : heap) :
  flags.IgnoreUnknown fs = false ->
  flags.Parameters fs = Ok ps ->
  Forall (fun p => isMarker p = false) pos ->
  isMarker a = true ->
  GoStrings.TrimLeft a "-" <> "" ->
  flags.flags fs !! GoStrings.TrimLeft a "-" = None ->
  exists fs',
    flags.Apply env fs (pos ++ a :: rest)%list h
    = Some (fs', h, Fail (ErrUnknownFlag (GoStrings.TrimLeft a "-")))
    /\ flags.Parameters fs' = Ok (ps ++ pos)%list
    /\ (forall k, k <> "" -> flags.flags fs' !! k = flags.flags fs !! k).
Proof.
  intros Hstrict Hps Hpos Hmark Hname Hunknown.
  revert fs ps Hstrict Hps Hunknown.
  induction Hpos as [|p pos Hp _ IH]; intros fs ps Hstrict Hps Hunknown.
  - exists fs. cbn [app]. rewrite Apply_cons. unfold flags.iteration.
    rewrite (isMarker_false_iff _ Hmark), Hunknown, Hstrict.
    rewrite app_nil_r. now repeat split.
  - destruct (appendParameter_ready fs ps p Hps) as (fs1 & Happ & Hp1 & Hm1 & Hk1).
    destruct (IH fs1 (ps ++ [p])%list) as (fs' & HA & HP & HK).
    { congruence. }
    { exact Hp1. }
    { rewrite Hk1 by exact Hname. exact Hunknown. }
    exists fs'. cbn [app]. rewrite Apply_cons. unfold flags.iteration.
    unfold isMarker in Hp. apply negb_false_iff in Hp. rewrite Hp, Happ.
    repeat split.
    + exact HA.
    + rewrite HP. now rewrite <- app_assoc.
    + intros k Hk. rewrite HK by exact Hk. now apply Hk1.
Qed.

Lemma X16_witness :
  exists fs',
    flags.Apply defaultEnv (flags.NewFlags false) ["a"; "b"; "-x"; "c"] []
    = Some (fs', [], Fail (ErrUnknownFlag "x"))
    /\ flags.Parameters fs' = Ok ["a"; "b"].
Proof.
  destruct (X16_Apply_strict_stops_at_unknown_flag defaultEnv (flags.NewFlags false)
              ["a"; "b"] "-x" ["c"] [] [])
    as (fs' & H1 & H2 & _).
  - reflexivity.
  - reflexivity.
  - repeat constructor.
  - reflexivity.
  - discriminate.
  - reflexivity.
  - exists fs'. split; [exact H1 | exact H2].
Defined.

(** X17 (flags.go:85-100). A flag bound to an [int] variable and followed
    by a token that is not empty, does not start with a dash and is not a
    decimal [int64] literal makes [Apply] stop with the could-not-read
    error naming the token and the flag; the variable, the rest of the heap
    and the registry are as before, and the tokens after it are not looked
    at. (The empty token is read as 0, see [intField].) *)
Theorem X17_Apply_int_flag_unreadable_value
    (env : Env) (fs : flags.Flags) (a val : string) (l : reflect.loc)
    (rest : list string) (h : heap) :
  isMarker a = true ->
  flags.flags fs !! GoStrings.TrimLeft a "-" = Some (reflect.VPtr reflect.int_ l) ->
  GoStrings.HasPrefix val "-" = false ->
  intField val = None ->
  flags.Apply env fs (a :: val :: rest) h
  = Some (fs, h, Fail (ErrCouldNotReadFlag val (GoStrings.TrimLeft a "-")
                         (ErrCouldNotBeRead val reflect.int_))).
Proof.
  intros Hmark Hv Hdash Hval.
  rewrite Apply_cons. unfold flags.iteration.
  rewrite (isMarker_false_iff _ Hmark), Hv.
  unfold flags.lookahead. rewrite Hdash. cbn [negb reflect.TypeOf].
  cbn [values.ValueFromString]. unfold bind at 1.
  change (values.intFromString env val (reflect.Basic "int" reflect.SInt) h)
    with (values.ValueFromString env val reflect.int_ h).
  rewrite ValueFromString_int, Hval.
  reflexivity.
Qed.

Lemma X17_witness :
  flags.Apply defaultEnv regInt ["--count"; "many"; "x"] [vint 3]
  = Some (regInt, [vint 3],
          Fail (ErrCouldNotReadFlag "many" "count" (ErrCouldNotBeRead "many" reflect.int_))).
Proof.
  apply (X17_Apply_int_flag_unreadable_value defaultEnv regInt "--count" "many" 0%nat
           ["x"] [vint 3]); reflexivity.
Defined.

(** X18 (flags.go:85-89). A token that starts with a dash is never taken
    as the value of the flag before it, a negative number included: the
    iteration for a known flag followed by such a token is the iteration
    for that flag with nothing after it, and the token is still to be
    scanned when it ends. *)
Theorem X18_dash_token_is_never_a_value
    (env : Env) (fs : flags.Flags) (a next : string) (v : Val)
    (r : list string) (h : heap) :
  isMarker a = true ->
  flags.flags fs !! GoStrings.TrimLeft a "-" = Some v ->
  GoStrings.HasPrefix next "-" = true ->
  flags.iteration env a (next :: r) fs h
  = match flags.iteration env a [] fs h with
    | flags.Continue _ fs' h' => flags.Continue (next :: r) fs' h'
    | flags.Return fs' h' o => flags.Return fs' h' o
    end.
Proof.
  intros Hmark Hv Hnext.
  unfold flags.iteration.
  rewrite (isMarker_false_iff _ Hmark), Hv.
  unfold flags.lookahead. rewrite Hnext. cbn [negb].
  destruct (reflect.TypeOf v) as [to|]; [|reflexivity].
  destruct (values.ValueFromString env "" to h) as [h1 [iVal|err|msg]] eqn:EV;
    [| |reflexivity].
  - destruct (flags.SetValue v iVal h1) as [h2 [?|?|?]]; reflexivity.
  - destruct (bool_decide _) eqn:EK; [|reflexivity].
    apply bool_decide_eq_true in EK.
    destruct (KindOf_Bool _ EK) as [nm ->].
    rewrite ValueFromString_bool_empty in EV. discriminate.
Qed.

Lemma X18_witness :
  flags.iteration defaultEnv "-count" ["-5"; "x"] regInt [vint 3]
  = match flags.iteration defaultEnv "-count" [] regInt [vint 3] with
    | flags.Continue _ fs' h' => flags.Continue ["-5"; "x"] fs' h'
    | flags.Return fs' h' o => flags.Return fs' h' o
    end.
Proof.
  apply (X18_dash_token_is_never_a_value defaultEnv regInt "-count" "-5"
           (reflect.VPtr reflect.int_ 0%nat) ["x"] [vint 3]); reflexivity.
Defined.

(** ** Further properties of [Commands] *)

(** X19 (findCommand, lines 65-72). [findCommand] is sound and complete
    for case folding: a name it returns as found is a name of the table
    that equals the argument under [strings.EqualFold]; when it reports not
    found it returns the empty string and no name of the table equals the
    argument under case folding. *)
Theorem X19_findCommand_sound_and_complete
    (env : Env) (cmds : mainline.Commands) (arg : string) :
  match mainline.findCommand env cmds arg with
  | (k, true) =>
      k ∈ mainline.keys cmds
      /\ GoStrings.EqualFold (unicodeFold env) k arg = true
  | (k, false) =>
      k = ""
      /\ forall k', k' ∈ mainline.keys cmds ->
                    GoStrings.EqualFold (unicodeFold env) k' arg = false
  end.
Proof.
  induction cmds as [|[k i] r IH]; cbn [mainline.findCommand].
  - split; [reflexivity|]. intros k' Hk'. now apply elem_of_nil in Hk'.
  - change (mainline.keys ((k, i) :: r)) with (k :: mainline.keys r).
    destruct (GoStrings.EqualFold (unicodeFold env) k arg) eqn:E.
    + split; [apply elem_of_cons; now left | exact E].
    + destruct (mainline.findCommand env r arg) as [k0 [|]].
      * destruct IH as [Hin Hf]. split; [apply elem_of_cons; now right | exact Hf].
      * destruct IH as [-> Hnone]. split; [reflexivity|].
        intros k' Hk'. apply elem_of_cons in Hk' as [->|Hk']; [exact E|].
        now apply Hnone.
Qed.

Lemma findCommand_found_is_key (env : Env) (cmds : mainline.Commands)
    (arg k : string) :
  mainline.findCommand env cmds arg = (k, true) -> k ∈ mainline.keys cmds.
Proof.
  induction cmds as [|[k' i] r IH]; cbn [mainline.findCommand]; [discriminate|].
  change (mainline.keys ((k', i) :: r)) with (k' :: mainline.keys r).
  destruct (GoStrings.EqualFold (unicodeFold env) k' arg).
  - intros [= <-]. apply elem_of_cons. now left.
  - intros H. apply elem_of_cons. right. now apply IH.
Qed.

Lemma keys_index (cmds : mainline.Commands) (k : string) :
  k ∈ mainline.keys cmds -> exists i, mainline.index cmds k = Some i.
Proof.
  induction cmds as [|[k' i'] r IH]; intros Hin.
  - now apply elem_of_nil in Hin.
  - change (mainline.keys ((k', i') :: r)) with (k' :: mainline.keys r) in Hin.
    cbn [mainline.index]. destruct (String.eqb k' k) eqn:E; [eauto|].
    apply elem_of_cons in Hin as [->|Hin]; [|now apply IH].
    rewrite String.eqb_refl in E. discriminate.
Qed.

(** the errors [Apply] returns are the unknown-flag error and the
    could-not-read error *)
Lemma iteration_errors (env : Env) (a : string) (rest : list string)
    (fs fs' : flags.Flags) (h h' : heap) (e : error) :
  flags.iteration env a rest fs h = flags.Return fs' h' (Fail e) ->
  (exists n, e = ErrUnknownFlag n) \/ (exists v n c, e = ErrCouldNotReadFlag v n c).
Proof.
  unfold flags.iteration, flags.appendParameter.
  destruct (negb (GoStrings.HasPrefix a "-") || String.eqb a "-").
  { unfold flags.Parameters.
    destruct (flags.flags fs !! "") as [v|]; [destruct (flags.toStrings v)|];
      discriminate. }
  destruct (flags.flags fs !! GoStrings.TrimLeft a "-") as [v|].
  2:{ destruct (flags.IgnoreUnknown fs).
      - unfold flags.Parameters.
        destruct (flags.flags fs !! "") as [v|]; [destruct (flags.toStrings v)|];
          discriminate.
      - intros [= _ _ <-]. left. eauto. }
  destruct (flags.lookahead rest) as [[argVal advanced] rest'].
  destruct (reflect.TypeOf v) as [to|]; [|discriminate].
  destruct (values.ValueFromString env argVal to h) as [h1 [iVal|err|msg]].
  - destruct (flags.SetValue v iVal h1) as [h2 [?|?|?]]; discriminate.
  - destruct (bool_decide _).
    + destruct (flags.SetValue v _ h1) as [h2 [?|?|?]]; discriminate.
    + intros [= _ _ <-]. right. eauto.
  - discriminate.
Qed.

Lemma loop_errors (env : Env) (fuel : nat) (args : list string)
    (fs fs' : flags.Flags) (h h' : heap) (e : error) :
  flags.loop env fuel args fs h = Some (fs', h', Fail e) ->
  (exists n, e = ErrUnknownFlag n) \/ (exists v n c, e = ErrCouldNotReadFlag v n c).
Proof.
  revert args fs h. induction fuel as [|fuel IH]; intros args fs h.
  - destruct args; discriminate.
  - destruct args as [|a rest]; [discriminate|]. cbn [flags.loop].
    destruct (flags.iteration env a rest fs h) as [rest1 fs1 h1|fs1 h1 r] eqn:E.
    + apply IH.
    + intros [= -> -> ->]. now apply iteration_errors in E.
Qed.

(** X20 (Run, lines 36-46). The "is not mapped" configuration error of
    line 45 is never returned: the name looked up at line 43 is the name
    [findCommand] has just found among the keys. *)
Theorem X20_Run_never_reports_not_mapped
    (env : Env) (IsHelpCommand IsMethod IsFunc : Val -> bool)
    (cmds : mainline.Commands) (args : list string) (G G' : flags.Flags)
    (h h' : heap) (arg cmd : string) :
  mainline.Run env IsHelpCommand IsMethod IsFunc cmds args G h
  <> Some (G', h', mainline.Returns (ErrNotMapped arg cmd)).
Proof.
  unfold mainline.Run, mainline.runArgs.
  set (args' := match args with
                | a0 :: r => if String.eqb a0 (os_Args0 env) then r else args
                | [] => args
                end).
  destruct (flags.Apply env G args' h) as [[[G1 h1] [u|e|msg]]|] eqn:EA;
    [| |discriminate..].
  - unfold mainline.resolve.
    destruct (flags.Parameters G1) as [ps|e|msg] eqn:EP.
    + set (arg0 := match ps with a :: _ => a | [] => "" end).
      replace (match ps with a :: r => (a, r) | [] => ("", []) end)
        with (arg0, match ps with _ :: r => r | [] => [] end)
        by (unfold arg0; now destruct ps).
      destruct (mainline.findCommand env cmds arg0) as [k [|]] eqn:Hf; cbn [negb].
      * apply findCommand_found_is_key in Hf.
        destruct (keys_index _ _ Hf) as [i ->].
        unfold mainline.dispatch.
        destruct i; try discriminate;
          destruct (IsHelpCommand _); try discriminate;
          destruct (IsMethod _); try discriminate;
          destruct (IsFunc _); discriminate.
      * destruct (String.eqb arg0 ""); discriminate.
    + unfold flags.Parameters in EP.
      destruct (flags.flags G1 !! "") as [v|]; [destruct (flags.toStrings v)|];
        discriminate.
    + discriminate.
  - intros [= _ _ ->]. apply loop_errors in EA.
    destruct EA as [[n Hn]|(v & n & c & Hn)]; discriminate.
Qed.

(** [Run] on global flags without flag names: the parameters left are the
    former ones followed by the arguments, and the command is looked up
    among them *)
Lemma Run_without_flags
    (env : Env) (IsHelpCommand IsMethod IsFunc : Val -> bool)
    (cmds : mainline.Commands) (args ps : list string) (G : flags.Flags) (h : heap) :
  flags.IgnoreUnknown G = true ->
  (forall k, k <> "" -> flags.flags G !! k = None) ->
  flags.Parameters G = Ok ps ->
  head args <> Some (os_Args0 env) ->
  Forall (fun a => isMarker a = true -> GoStrings.TrimLeft a "-" <> "") args ->
  exists G',
    mainline.Run env IsHelpCommand IsMethod IsFunc cmds args G h
    = Some (G', h, mainline.resolve env IsHelpCommand IsMethod IsFunc cmds G')
    /\ flags.Parameters G' = Ok (ps ++ map asParameter args)%list.
Proof.
  intros Hperm Hnone Hps Hhead Hall.
  destruct (Apply_to_parameters env G args ps h Hperm Hnone Hps Hall)
    as (G' & HA & HP & _ & _).
  exists G'. split; [|exact HP].
  unfold mainline.Run.
  assert (Hargs : match args with
                  | a0 :: r => if String.eqb a0 (os_Args0 env) then r else args
                  | [] => args
                  end = args).
  { destruct args as [|a0 r]; [reflexivity|].
    destruct (String.eqb a0 (os_Args0 env)) eqn:E; [|reflexivity].
    apply String.eqb_eq in E as ->. now contradiction Hhead. }
  rewrite Hargs. unfold mainline.runArgs. now rewrite HA.
Qed.

(** X21 (Run, lines 19-61; flags.go:66-83). With permissive global flags
    that have no flag names and readable parameters, and for arguments that
    do not start with the program name and hold no marker made of dashes
    only, [Run] takes as command name the first of the parameters the
    global flags hold after [Apply]: the parameters left by earlier calls
    come first, then the arguments of this call, a marker among them
    counting as one dash and its name. When that name is found and its
    entry is not nil, the entry is handed to the invokers with all the
    parameters after the name, unknown flags included. *)
Theorem X21_Run_dispatches_on_first_parameter
    (env : Env) (IsHelpCommand IsMethod IsFunc : Val -> bool)
    (cmds : mainline.Commands) (args ps more : list string)
    (cmdTok k : string) (i : Val) (G : flags.Flags) (h : heap) :
  flags.IgnoreUnknown G = true ->
  (forall k, k <> "" -> flags.flags G !! k = None) ->
  flags.Parameters G = Ok ps ->
  head args <> Some (os_Args0 env) ->
  Forall (fun a => isMarker a = true -> GoStrings.TrimLeft a "-" <> "") args ->
  (ps ++ map asParameter args)%list = cmdTok :: more ->
  mainline.findCommand env cmds cmdTok = (k, true) ->
  mainline.index cmds k = Some i ->
  i <> reflect.VNil ->
  exists G',
    mainline.Run env IsHelpCommand IsMethod IsFunc cmds args G h
    = Some (G', h, mainline.dispatch IsHelpCommand IsMethod IsFunc i cmds more)
    /\ flags.Parameters G' = Ok (cmdTok :: more).
Proof.
  intros Hperm Hnone Hps Hhead Hall Hsplit Hfind Hidx Hnil.
  destruct (Run_without_flags env IsHelpCommand IsMethod IsFunc cmds args ps G h
              Hperm Hnone Hps Hhead Hall) as (G' & HR & HP).
  exists G'. rewrite Hsplit in HP. split; [|exact HP].
  rewrite HR. unfold mainline.resolve. rewrite HP, Hfind. cbn [negb].
  rewrite Hidx. destruct i; try reflexivity. contradiction.
Qed.

Lemma X21_witness :
  exists G',
    mainline.Run defaultEnv noVal noVal isFuncVal
      [("greet", handler "main.greet")] ["greet"; "-loud"; "World"]
      mainline.GlobalFlags []
    = Some (G', [], mainline.CallFunc (handler "main.greet") ["-loud"; "World"]).
Proof.
  destruct (X21_Run_dispatches_on_first_parameter defaultEnv noVal noVal isFuncVal
              [("greet", handler "main.greet")] ["greet"; "-loud"; "World"] []
              ["-loud"; "World"] "greet" "greet" (handler "main.greet")
              mainline.GlobalFlags [])
    as (G' & HR & _).
  - reflexivity.
  - intros k _. apply lookup_empty.
  - reflexivity.
  - discriminate.
  - repeat constructor; discriminate.
  - reflexivity.
  - reflexivity.
  - reflexivity.
  - discriminate.
  - exists G'. exact HR.
Defined.

(** X22 (Run, lines 30-42). With permissive global flags that have no
    flag names and readable parameters, and for arguments that do not start
    with the program name and hold no marker made of dashes only: when no
    name of the table equals the first parameter under case folding (the
    empty string standing in when there is no parameter), [Run] returns the
    no-command-given error if that parameter is empty or missing, and the
    not-a-known-command error naming it otherwise; no entry is invoked. *)
Theorem X22_Run_unknown_command
    (env : Env) (IsHelpCommand IsMethod IsFunc : Val -> bool)
    (cmds : mainline.Commands) (args ps : list string)
    (k : string) (G : flags.Flags) (h : heap) :
  flags.IgnoreUnknown G = true ->
  (forall k, k <> "" -> flags.flags G !! k = None) ->
  flags.Parameters G = Ok ps ->
  head args <> Some (os_Args0 env) ->
  Forall (fun a => isMarker a = true -> GoStrings.TrimLeft a "-" <> "") args ->
  mainline.findCommand env cmds (hd "" (ps ++ map asParameter args)%list)
  = (k, false) ->
  exists G',
    mainline.Run env IsHelpCommand IsMethod IsFunc cmds args G h
    = Some (G', h,
            mainline.Returns
              (if String.eqb (hd "" (ps ++ map asParameter args)%list) ""
               then ErrNoCommandGiven
               else ErrNotKnownCommand (hd "" (ps ++ map asParameter args)%list))).
Proof.
  intros Hperm Hnone Hps Hhead Hall Hfind.
  destruct (Run_without_flags env IsHelpCommand IsMethod IsFunc cmds args ps G h
              Hperm Hnone Hps Hhead Hall) as (G' & HR & HP).
  exists G'. rewrite HR. unfold mainline.resolve. rewrite HP.
  destruct (ps ++ map asParameter args)%list as [|a r];
    cbn [hd] in *; rewrite Hfind; cbn [negb]; [reflexivity|].
  now destruct (String.eqb a "").
Qed.

Lemma X22_witness :
  exists G',
    mainline.Run defaultEnv noVal noVal isFuncVal buildTable ["-x"; "build"]
      mainline.GlobalFlags []
    = Some (G', [], mainline.Returns (ErrNotKnownCommand "-x")).
Proof.
  destruct (X22_Run_unknown_command defaultEnv noVal noVal isFuncVal buildTable
              ["-x"; "build"] [] "" mainline.GlobalFlags [])
    as (G' & HR).
  - reflexivity.
  - intros k _. apply lookup_empty.
  - reflexivity.
  - discriminate.
  - repeat constructor; discriminate.
  - reflexivity.
  - exists G'. exact HR.
Defined.

(** X23 (values.go:119-123, 185-196). The empty token reaches no decoder:
    for every struct type, URL and Time included, it gives the zero value
    of that type, and for every map type a pointer to a fresh empty map,
    whatever the library decoders would do. *)
Theorem X23_empty_token_struct_and_map
    (env : Env) (h : heap) :
  (forall name ifaces,
     values.ValueFromString env "" (reflect.StructT name ifaces) h
     = ((h ++ [reflect.VData (reflect.StructT name ifaces) ""])%list,
        Ok (reflect.VData (reflect.StructT name ifaces) "")))
  /\ (forall k e,
        values.ValueFromString env "" (reflect.MapOf k e) h
        = ((h ++ [reflect.VData (reflect.MapOf k e) "{}"])%list,
           Ok (reflect.VPtr (reflect.MapOf k e) (length h)))).
Proof.
  split.
  - intros name ifaces. cbn [values.ValueFromString].
    unfold values.structureFromString, reflectOps.New, bind, alloc, ret.
    cbn [String.eqb reflect.Zero reflectOps.ElemInterface]. unfold load.
    now rewrite load_fresh.
  - intros k e. cbn [values.ValueFromString]. unfold values.mapFromString.
    cbn [String.eqb negb].
    rewrite (New_SetElem _ (reflect.VData (reflect.MapOf k e) "{}") (fun p => ret p)).
    cbn [reflect.TypeOf]. now rewrite bool_decide_eq_true_2 by reflexivity.
Qed.

(** X24 (flags.go:67-103). The loop of [Apply] always ends: an iteration
    that goes on leaves fewer tokens than it was given with the token it
    looked at, also through the [i--] of line 97, which is only reached
    after the [i++] of line 87; so [Apply] reaches a result within as many
    iterations as there are arguments, and more iterations allowed do not
    change it. *)
Theorem X24_Apply_terminates
    (env : Env) (fs : flags.Flags) (args : list string) (h : heap) :
  (forall a rest rest' fs1 fs2 h1 h2,
     flags.iteration env a rest fs1 h1 = flags.Continue rest' fs2 h2 ->
     (length rest' < length (a :: rest))%nat)
  /\ exists r,
       flags.Apply env fs args h = Some r
       /\ forall fuel, (length args <= fuel)%nat ->
                       flags.loop env fuel args fs h = Some r.
Proof.
  split.
  - intros a rest rest' fs1 fs2 h1 h2 H.
    apply iteration_Continue_shorter in H. cbn [length]. lia.
  - destruct (loop_enough_fuel env (length args) args fs h) as [r Hr]; [lia|].
    exists r. split; [exact Hr|].
    intros fuel Hfuel. now apply loop_fuel_mono with (fuel := length args).
Qed.
